(** * fee-board: the incremental fee cache and the Uniswap adapters

    A shallow embedding of
      - pages/protocol/[id].tsx : getMissing, getDateWithSmoothing,
        formatData, saveFeeData and the useFees hook; dateFloor, the initial
        state of ProtocolDetails and getStaticProps;
      - the Uniswap adapter module : uniV3Adapter, getUniswapV2Data,
        getUniswapV1Data and registerUniswap.

    Modelling conventions.
      - A JavaScript [Date] is its time value, the milliseconds since the
        epoch ([Z]).  date-fns' addDays and subDays step calendar days in the
        local time of the runtime, as Date.prototype.setDate does; the time
        zone of the runtime is a parameter ([TimeZone]).
      - A JavaScript number holding a fee or a volume is a binary64 float
        ([float], with the IEEE 754 operations of the kernel); the decimal
        strings of the subgraph are carried already read by parseFloat.  The
        smoothing factor is an integer ([Z]).
      - A JavaScript object used as a dictionary is a [gmap] of its own
        properties; a stored cell is an object, hence truthy, so [!obj[k]]
        is "no entry at k".
      - A thrown exception is the [Throw] branch of [Result].
      - The hook is a state record; the effect body and the completion of a
        fetch are functions on it, and a run is a list of events. *)

From stdpp Require Import gmap strings list fin_maps numbers pretty sorting.
From Stdlib Require Import QArith Floats.

Set Warnings "-inexact-float".
Open Scope Z_scope.

(** ** Exceptions *)

Inductive Error :=
| TypeError (msg : string)   (* reading a property of undefined *)
| Err (msg : string)         (* new Error(msg) *)
| FetchError (msg : string). (* the upstream call itself failed *)

Inductive Result (A : Type) :=
| Ok (a : A)
| Throw (e : Error).

Arguments Ok {A} a.
Arguments Throw {A} e.

Definition bindR {A B} (r : Result A) (k : A → Result B) : Result B :=
  match r with
  | Ok a => k a
  | Throw e => Throw e
  end.

Notation "x ←? r ; k" := (bindR r (λ x, k))
  (at level 20, r at level 100, k at level 200, right associativity,
   format "x  ←?  r ;  '/' k").

(** ** Dates, date-fns and data/lib/time *)

(** A [Date] is its time value: milliseconds since the epoch, UTC. *)
Definition Date := Z.

(** The time zone of the runtime, as ECMAScript sees it: the offset of local
    time from UTC at an instant ([LocalTZA(t, true)]) and at a local time
    value ([LocalTZA(t, false)], which for a local time that a transition
    skips or repeats is the offset before the transition).  One calendar day
    later in local time is at least an hour later: no zone changes its offset
    by 23 hours within a day. *)
Class TimeZone := {
  utcOffset : Z → Z;
  localOffset : Z → Z;
  day_forward : ∀ t,
    t + 3600000 <= t + utcOffset t + 86400000 - localOffset (t + utcOffset t + 86400000);
}.

(** date-fns addDays: [if (!amount) return date] and otherwise
    [date.setDate(date.getDate() + amount)], that is, the same local time of
    day [amount] calendar days later, read back as an instant. *)
Definition addDays `{TimeZone} (date : Date) (amount : Z) : Date :=
  if amount =? 0 then date
  else
    let local := date + utcOffset date + amount * 86400000 in
    local - localOffset local.

(** date-fns subDays: [addDays(date, -amount)]. *)
Definition subDays `{TimeZone} (date : Date) (amount : Z) : Date :=
  addDays date (- amount).

Definition isAfter (date dateToCompare : Date) : bool := dateToCompare <? date.

(** Date.prototype.getTime: milliseconds since the epoch. *)
Definition getTime (date : Date) : Z := date.

(** The JavaScript number for the integer [z]: the nearest double, which is
    [z] itself below 2^53. *)
Definition toNumber (z : Z) : float := SF2Prim (binary_normalize prec emax z 0 false).

(** The two helpers imported from data/lib/time, which is not part of the
    sources at hand; every definition and theorem below is parametric in
    them. *)
Class Time := {
  formatDate : Date → string;
  dateToTimestamp : string → Z;
}.

(** The header of the loops
    [for (let date = minDate; !isAfter(date, maxDate); date = addDays(date, 1))]:
    the successive values of [date]. *)
Fixpoint eachDay `{TimeZone} (fuel : nat) (date maxDate : Date) : list Date :=
  match fuel with
  | O => []
  | S fuel =>
      if isAfter date maxDate then []
      else date :: eachDay fuel (addDays date 1) maxDate
  end.

(** Every step is at least an hour, so one unit of fuel per hour of the range
    is more than the loop can use. *)
Definition days `{TimeZone} (minDate maxDate : Date) : list Date :=
  eachDay (S (Z.to_nat ((maxDate - minDate) / 3600000 + 1))) minDate maxDate.

(** The same header as a relation: from [date] the loop ends when [date] is
    after [maxDate], and otherwise runs its body at [date] and goes on from
    [addDays(date, 1)]. *)
Inductive visits `{TimeZone} (maxDate : Date) : Date → list Date → Prop :=
| visits_end (date : Date) :
    maxDate < date → visits maxDate date []
| visits_body (date : Date) (rest : list Date) :
    date <= maxDate → visits maxDate (addDays date 1) rest →
    visits maxDate date (date :: rest).

(** ** The fee store *)

(** What is kept per (protocol, date): the record without its date. *)
Record Cell := { fee : float }.

(** One element of the array returned by the query service; the page only
    ever takes it apart as [{ date, ...data }]. *)
Module FeeRecord.
Record t := { date : string; attrs : Cell }.
End FeeRecord.

(** One element of [response.data]. *)
Module ProtocolFees.
Record t := { id : string; data : list FeeRecord.t }.
End ProtocolFees.

(** One element of the derived series. *)
Module Point.
Record t := { date : float; primary : float; secondary : float }.
End Point.

Abbreviation FeeStore := (gmap string (gmap string Cell)).

(** [data[id][key]], [None] for undefined. *)
Definition cell (data : FeeStore) (id key : string) : option Cell :=
  data !! id ≫= λ byDate, byDate !! key.

(** [data[id][key].fee]; reading through undefined throws. *)
Definition cellFee (data : FeeStore) (id key : string) : Result float :=
  match data !! id with
  | None => Throw (TypeError "Cannot read properties of undefined")
  | Some byDate =>
      match byDate !! key with
      | None => Throw (TypeError "Cannot read properties of undefined (reading 'fee')")
      | Some c => Ok (fee c)
      end
  end.

(** [secondary ? f(secondary) : dflt] for [secondary : string | null]; the
    empty string is falsy. *)
Definition whenSet {A} (secondary : option string) (f : string → A) (dflt : A) : A :=
  match secondary with
  | Some id => if String.eqb id "" then dflt else f id
  | None => dflt
  end.

Section Cache.
Context `{TimeZone} `{Time}.

(** getMissing mutates [data] (line 17) and returns [missing]; the embedding
    returns both. *)
Definition getMissing (data : FeeStore) (minDate maxDate : Date) (id : string)
  : list string * FeeStore :=
  let data := match data !! id with
              | None => <[id := ∅]> data
              | Some _ => data
              end in
  let missing :=
    foldl (λ missing date,
             let dateStr := formatDate date in
             match cell data id dateStr with
             | None => missing ++ [dateStr]
             | Some _ => missing
             end)
          [] (days minDate maxDate) in
  (missing, data).

Definition getDateWithSmoothing (data : FeeStore) (id : string) (date : Date)
  (smoothing : Z) : Result float :=
  fee ←? cellFee data id (formatDate date);
  if 0 <? smoothing then
    fee ←? foldl (λ fee i,
                    fee ←? fee;
                    f ←? cellFee data id (formatDate (subDays date i));
                    Ok (fee + f)%float)
                 (Ok fee) (seqZ 1 smoothing);
    Ok (fee / toNumber (smoothing + 1))%float
  else Ok fee.

Definition formatData (data : FeeStore) (minDate maxDate : Date)
  (primaryId : string) (secondaryId : option string) (smoothing : Z)
  : Result (list Point.t) :=
  foldl (λ result date,
           result ←? result;
           primary ←? getDateWithSmoothing data primaryId date smoothing;
           secondary ←? whenSet secondaryId
                          (λ id, getDateWithSmoothing data id date smoothing)
                          (Ok 0%float);
           Ok (result ++ [ {| Point.date := (toNumber (getTime date) / 1000)%float;
                              Point.primary := primary;
                              Point.secondary := secondary |} ]))
        (Ok []) (days minDate maxDate).

End Cache.

Definition saveFeeData (response : list ProtocolFees.t) (storedFees : FeeStore)
  : FeeStore :=
  foldl (λ storedFees protocol,
           let id := ProtocolFees.id protocol in
           let storedFees := match storedFees !! id with
                             | None => <[id := ∅]> storedFees
                             | Some _ => storedFees
                             end in
           foldl (λ storedFees r,
                    <[id := <[FeeRecord.date r := FeeRecord.attrs r]>
                              (default ∅ (storedFees !! id))]> storedFees)
                 storedFees (ProtocolFees.data protocol))
        storedFees response.

(** ** The useFees hook *)

(** [dateRange]. *)
Record DateRange := { start : Date; end_ : Date }.

(** The arguments of one render of the hook, which are also the dependency
    list of its effect. *)
Record Params := {
  dateRange : DateRange;
  primary : string;
  secondary : option string;
  smoothing : Z;
}.

(** The state held by [useState]. *)
Module Value.
Record t := { loading : bool; data : list Point.t }.
End Value.

(** The body of /api/v1/feesByDay's answer. *)
Module Response.
Record t := { success : bool; data : list ProtocolFees.t }.
End Response.

(** How a fetch ends: the promise chain [fetch(..).then(r => r.json())]
    either rejects (transport failure, body that is no JSON), in which case
    the second [then] callback never runs, or hands the parsed body to it. *)
Inductive Outcome :=
| Rejected
| Json (response : Response.t).

(** A fetch that was issued, with the variables its callback closes over. *)
Record Fetch := { url : string; closure : Params; settled : bool }.

(** [fees] is the [useRef] cell, [value] the [useState] cell, [console] what
    was passed to console.error, [requests] every fetch issued so far. *)
Record Hook := {
  fees : FeeStore;
  value : Value.t;
  console : list Response.t;
  requests : list Fetch;
}.

(** The first render: [useRef(initial)], [useState({loading: false, data: []})]. *)
Definition useFees (initial : FeeStore) : Hook :=
  {| fees := initial;
     value := {| Value.loading := false; Value.data := [] |};
     console := [];
     requests := [] |}.

(** [arr.join(',')]. *)
Definition join (sep : string) (l : list string) : string := String.concat sep l.

Definition settleFetch (k : nat) (requests : list Fetch) : list Fetch :=
  alter (λ f, {| url := url f; closure := closure f; settled := true |}) k requests.

Section Hook.
Context `{TimeZone} `{Time}.

(** [formatData(fees.current, dateRange.start, dateRange.end, primary,
    secondary, smoothing)], as both branches of the effect call it. *)
Definition derive (fees : FeeStore) (p : Params) : Result (list Point.t) :=
  formatData fees (start (dateRange p)) (end_ (dateRange p))
    (primary p) (secondary p) (smoothing p).

(** The body of the effect (lines 91-139), run for the parameters [p]. *)
Definition recompute (p : Params) (h : Hook) : Hook :=
  let actualStartDate :=
    if 0 <? smoothing p then subDays (start (dateRange p)) (smoothing p)
    else start (dateRange p) in
  let '(missingPrimary, fees1) :=
    getMissing (fees h) actualStartDate (end_ (dateRange p)) (primary p) in
  let '(missingSecondary, fees2) :=
    whenSet (secondary p)
      (getMissing fees1 actualStartDate (end_ (dateRange p)))
      ([], fees1) in
  if (0 <? length missingPrimary)%nat || (0 <? length missingSecondary)%nat then
    let secondaryQuery :=
      if (0 <? length missingSecondary)%nat
      then "&" +:+ default "null" (secondary p) +:+ "=" +:+ join "," missingSecondary
      else "" in
    {| fees := fees2;
       value := {| Value.data := Value.data (value h); Value.loading := true |};
       console := console h;
       requests := requests h ++
         [ {| url := "/api/v1/feesByDay?" +:+ primary p +:+ "="
                       +:+ join "," missingPrimary +:+ "&" +:+ secondaryQuery;
              closure := p;
              settled := false |} ] |}
  else
    match derive fees2 p with
    | Ok series =>
        {| fees := fees2;
           value := {| Value.loading := false; Value.data := series |};
           console := console h;
           requests := requests h |}
    | Throw _ =>
        (* the effect throws out of formatData: setValue is not reached *)
        {| fees := fees2; value := value h; console := console h;
           requests := requests h |}
    end.

(** The second [then] callback (lines 106-126) of a fetch that was issued for
    the parameters [p]. *)
Definition onResponse (p : Params) (response : Response.t) (h : Hook) : Hook :=
  if negb (Response.success response) then
    {| fees := fees h;
       value := {| Value.data := Value.data (value h); Value.loading := false |};
       console := console h ++ [response];
       requests := requests h |}
  else
    let fees' := saveFeeData (Response.data response) (fees h) in
    match derive fees' p with
    | Ok series =>
        {| fees := fees';
           value := {| Value.loading := false; Value.data := series |};
           console := console h;
           requests := requests h |}
    | Throw _ =>
        (* the callback throws after the merge: setValue is not reached *)
        {| fees := fees'; value := value h; console := console h;
           requests := requests h |}
    end.

(** The store as the two getMissing calls of the effect leave it (a name for
    what [recompute] puts in [fees]). *)
Definition ensured (p : Params) (data : FeeStore) : FeeStore :=
  let from := if 0 <? smoothing p then subDays (start (dateRange p)) (smoothing p)
              else start (dateRange p) in
  let fees1 := (getMissing data from (end_ (dateRange p)) (primary p)).2 in
  (whenSet (secondary p) (getMissing fees1 from (end_ (dateRange p))) ([], fees1)).2.

(** The [k]-th fetch issued ends with [o]; a fetch ends once. *)
Definition settle (k : nat) (o : Outcome) (h : Hook) : Hook :=
  match requests h !! k with
  | None => h
  | Some f =>
      if settled f then h
      else
        let h := {| fees := fees h; value := value h; console := console h;
                    requests := settleFetch k (requests h) |} in
        match o with
        | Rejected => h
        | Json response => onResponse (closure f) response h
        end
  end.

(** What can happen to a mounted hook: its parameters change and the effect
    runs, or a fetch in flight ends. *)
Inductive Event :=
| Recompute (p : Params)
| Settle (k : nat) (o : Outcome).

Definition step (h : Hook) (e : Event) : Hook :=
  match e with
  | Recompute p => recompute p h
  | Settle k o => settle k o h
  end.

Definition run (h : Hook) (es : list Event) : Hook := foldl step h es.

End Hook.

(** ** The Uniswap adapters *)

(** A row of a subgraph answer, with the fields the three queries select
    (feesUSD; dailyVolumeUSD; dailyVolumeInUSD), each as parseFloat reads it. *)
Record DayData := { feesUSD : float; dailyVolumeUSD : float; dailyVolumeInUSD : float }.

(** The [data] of a subgraph answer: [uniswapDayDatas] and, for the V2
    query, the rows of the blacklisted pairs under the alias [blacklist]. *)
Record GraphData := { uniswapDayDatas : list DayData; blacklist : list DayData }.

(** One call of lib/graph's [query]: the subgraph, the day-boundary timestamp
    the query is keyed by and the [$blacklistAddresses] variable. *)
Record GraphCall := { subgraph : string; timestamp : Z; addresses : list string }.

(** The network: what the subgraph answers to a call, or the failure of the
    call. *)
Definition Upstream := GraphCall → Result GraphData.

(** An [async] function's result: run against the network it yields the
    calls it made and how it settled. *)
Definition Promise (A : Type) := Upstream → list GraphCall * Result A.

Module graph.
(** [await query(subgraph, graphQuery, variables, 'fees')]. *)
Definition query (call : GraphCall) : Promise GraphData :=
  λ upstream, ([call], upstream call).
End graph.

(** The code that follows the single [await] of each adapter. *)
Definition andThen {A B} (p : Promise A) (k : A → Result B) : Promise B :=
  λ upstream, let '(calls, r) := p upstream in (calls, bindR r k).

(** [rows[rows.length - 1]] followed by a property read: index -1 of an
    empty array is undefined, and reading a property of it throws. *)
Definition lastRow (rows : list DayData) : Result DayData :=
  match rows !! (length rows - 1)%nat with
  | Some row => Ok row
  | None => Throw (TypeError "Cannot read properties of undefined")
  end.

Definition blacklistAddresses : list string :=
  [ "0x7d7e813082ef6c143277c71786e5be626ec77b20";
    "0xe5ffe183ae47f1a0e4194618d34c5b05b98953a8";
    "0xf9c1fa7d41bf44ade1dd08d37cc68f67ae75bf92";
    "0x23fe4ee3bd9bfd1152993a7954298bb4d426698f";
    "0x382a9a8927f97f7489af3f0c202b23ed1eb772b5" ].

Record Metadata := {
  icon : string;
  name : string;
  category : string;
  description : string;
  feeDescription : string;
  website : string;
  blockchain : string;
  source : string;
  adapter : string;
  tokenTicker : option string;
  tokenCoingecko : option string;
  protocolLaunch : string;
  tokenLaunch : option string;
}.

(** The metadata objects of the four registrations. *)
Definition v1Metadata : Metadata :=
  {| icon := "icons/uniswap-v1.png";
     name := "Uniswap V1";
     category := "dex";
     description := "Uniswap is a permissionless, decentralized exchange";
     feeDescription := "Trading fees are paid by traders to liquidity providers";
     website := "https://uniswap.com";
     blockchain := "Ethereum";
     source := "The Graph Protocol";
     adapter := "uniswap";
     tokenTicker := None;
     tokenCoingecko := None;
     protocolLaunch := "2020-11-02";
     tokenLaunch := None |}.

Definition v2Metadata : Metadata :=
  {| icon := "icons/uniswap.svg";
     name := "Uniswap V2";
     category := "dex";
     description := "Uniswap is a permissionless, decentralized exchange";
     feeDescription := "Trading fees are paid by traders to liquidity providers";
     website := "https://uniswap.org";
     blockchain := "Ethereum";
     source := "The Graph Protocol";
     adapter := "uniswap";
     tokenTicker := Some "UNI";
     tokenCoingecko := Some "uniswap";
     protocolLaunch := "2020-05-04";
     tokenLaunch := Some "2020-09-14" |}.

Definition v3Metadata : Metadata :=
  {| icon := "icons/uniswap.svg";
     name := "Uniswap V3";
     category := "dex";
     description := "Uniswap is a permissionless, decentralized exchange";
     feeDescription := "Trading fees are paid by traders to liquidity providers";
     website := "https://uniswap.org";
     blockchain := "Ethereum";
     source := "The Graph Protocol";
     adapter := "uniswap";
     tokenTicker := Some "UNI";
     tokenCoingecko := Some "uniswap";
     protocolLaunch := "2021-05-05";
     tokenLaunch := Some "2020-09-14" |}.

Definition optimismMetadata : Metadata :=
  {| icon := "icons/uniswap.svg";
     name := "Uniswap V3 (Optimism)";
     category := "dex";
     description := "Uniswap is a permissionless, decentralized exchange";
     feeDescription := "Trading fees are paid by traders to liquidity providers";
     website := "https://uniswap.org";
     blockchain := "Optimism";
     source := "The Graph Protocol";
     adapter := "uniswap";
     tokenTicker := Some "UNI";
     tokenCoingecko := Some "uniswap";
     protocolLaunch := "2021-07-09";
     tokenLaunch := Some "2020-09-14" |}.

(** The query capability handed to [register]: it throws at once or returns
    the adapter's promise. *)
Definition QueryFn := string → string → Result (Promise float).

Section Adapters.
Context `{Time}.

Definition uniV3Adapter (subgraph : string) (date : string) : Promise float :=
  andThen
    (graph.query {| subgraph := subgraph;
                    timestamp := dateToTimestamp date;
                    addresses := [] |})
    (λ data,
       if (length (uniswapDayDatas data) =? 0)%nat then Ok 0%float
       else
         row ←? lastRow (uniswapDayDatas data);
         Ok (feesUSD row)).

Definition getUniswapV2Data (date : string) : Promise float :=
  andThen
    (graph.query {| subgraph := "uniswap/uniswap-v2";
                    timestamp := dateToTimestamp date;
                    addresses := blacklistAddresses |})
    (λ data,
       let blacklistVolume :=
         foldl (λ total day, (total + dailyVolumeUSD day)%float) 0%float
               (blacklist data) in
       row ←? lastRow (uniswapDayDatas data);
       let oneDayVolume := (dailyVolumeUSD row - blacklistVolume)%float in
       let oneDay := (oneDayVolume * 0.003)%float in
       Ok oneDay).

Definition getUniswapV1Data (date : string) : Promise float :=
  andThen
    (graph.query {| subgraph := "graphprotocol/uniswap";
                    timestamp := dateToTimestamp date;
                    addresses := [] |})
    (λ data,
       row ←? lastRow (uniswapDayDatas data);
       let oneDay := (dailyVolumeInUSD row * 0.003)%float in
       Ok oneDay).

(** The wrapper defined inside registerUniswap. *)
Definition query (adapter : string → Promise float) : QueryFn :=
  λ attribute date,
    if negb (String.eqb attribute "fee")
    then Throw (Err ("Uniswap doesn't support " +:+ attribute))
    else Ok (adapter date).

(** registerUniswap calls [register] four times; [register] is threaded
    through as an update of whatever registry the caller keeps. *)
Definition registerUniswap {Registry : Type}
  (register : string → QueryFn → Metadata → Registry → Registry)
  (registry : Registry) : Registry :=
  let registry := register "uniswap-v1" (query getUniswapV1Data) v1Metadata registry in
  let registry := register "uniswap-v2" (query getUniswapV2Data) v2Metadata registry in
  let registry :=
    register "uniswap-v3" (query (uniV3Adapter "ianlapham/uniswap-v3-prod"))
      v3Metadata registry in
  register "uniswap-optimism" (query (uniV3Adapter "ianlapham/uniswap-optimism"))
    optimismMetadata registry.

(** The adapters as registered: the arguments of the four calls, in order. *)
Definition registered : list (string * QueryFn * Metadata) :=
  registerUniswap (λ id q m registry, registry ++ [(id, q, m)]) [].

(** Invoking a query capability against the network: a throw happens before
    any promise exists, so no call is made. *)
Definition invoke (q : QueryFn) (attribute date : string) (upstream : Upstream)
  : list GraphCall * Result float :=
  match q attribute date with
  | Throw e => ([], Throw e)
  | Ok promise => promise upstream
  end.

End Adapters.

(** ** The page: dateFloor, ProtocolDetails and getStaticProps *)

(** dateFloor (lines 152-155): [setUTCHours(0, 0, 0, 0)]. *)
Definition dateFloor (date : Date) : Date := date - date mod 86400000.

(** The initial [dateRange] state of ProtocolDetails (lines 163-166); [now]
    and [now'] are what the two [new Date()] read, one after the other. *)
Definition initialDateRange `{TimeZone} (now now' : Date) : DateRange :=
  {| start := dateFloor (subDays now 90);
     end_ := dateFloor (subDays now' 1) |}.

(** The arguments of the first [useFees] call of ProtocolDetails (line 170):
    no smoothing, no secondary protocol. *)
Definition initialParams `{TimeZone} (now now' : Date) (id : string) : Params :=
  {| dateRange := initialDateRange now now'; primary := id;
     secondary := None; smoothing := 0 |}.

(** [const { [id]: filter, ...otherProtocols } = protocols] (line 172). *)
Definition otherProtocols (id : string) (protocols : gmap string string)
  : gmap string string :=
  delete id protocols.

(** The props getStaticProps returns. *)
Module StaticProps.
Record t := {
  id : string;
  metadata : Metadata;
  feeCache : FeeStore;
  protocols : gmap string string;
}.
End StaticProps.

(** [defaultFees] as lines 236-239 fill it. *)
Definition defaultFeesOf (defaultFeesArray : list FeeRecord.t) : gmap string Cell :=
  foldl (λ defaultFees r, <[FeeRecord.date r := FeeRecord.attrs r]> defaultFees)
        ∅ defaultFeesArray.

Section Page.
Context `{TimeZone}.
(** data/queries and data/adapters are not among the sources: the query
    service, the registered ids and the metadata lookup are parameters. *)
Variable getDateRangeData : string → Date → Date → Result (list FeeRecord.t).
Variable getIDs : list string.
Variable getMetadata : string → Metadata.

Definition getStaticProps (now now' : Date) (id : string) : Result StaticProps.t :=
  defaultFeesArray ←? getDateRangeData id (subDays now 90) (subDays now' 1);
  let defaultFees := defaultFeesOf defaultFeesArray in
  let ids := merge_sort (λ a b, String.leb a b) getIDs in
  let protocols :=
    foldl (λ protocols id, <[id := name (getMetadata id)]> protocols) ∅ ids in
  Ok {| StaticProps.id := id;
        StaticProps.metadata := getMetadata id;
        StaticProps.feeCache := {[ id := defaultFees ]};
        StaticProps.protocols := protocols |}.

End Page.

(** ** Two runtimes, for the worked examples *)

(** A runtime whose local time is UTC. *)
Definition utcZone : TimeZone :=
  {| utcOffset := λ _, 0;
     localOffset := λ _, 0;
     day_forward := λ t, ltac:(cbn beta; lia) |}.

(** A runtime in New York, with the rules of 2021: standard time (UTC-5) and,
    from 2021-03-14 07:00 UTC to 2021-11-07 06:00 UTC, daylight time (UTC-4).
    In local time the change is at 03:00 on 2021-03-14 and at 02:00 on
    2021-11-07, the skipped and the repeated hour being read with the offset
    in force before. *)
Definition newYorkOffset (from to t : Z) : Z :=
  if (from <=? t) && (t <? to) then - 4 * 3600000 else - 5 * 3600000.

Definition newYork : TimeZone :=
  {| utcOffset := newYorkOffset (18700 * 86400000 + 7 * 3600000)
                                (18938 * 86400000 + 6 * 3600000);
     localOffset := newYorkOffset (18700 * 86400000 + 3 * 3600000)
                                  (18938 * 86400000 + 2 * 3600000);
     day_forward := λ t,
       ltac:(cbn beta; unfold newYorkOffset; repeat (destruct (_ && _)); lia) |}.

(** ** A concrete data/lib/time, for the worked examples *)

(** Day number to (year, month, day) in the proleptic Gregorian calendar. *)
Definition civilFromDays (z : Z) : Z * Z * Z :=
  let z := z + 719468 in
  let era := z / 146097 in
  let doe := z - era * 146097 in
  let yoe := (doe - doe / 1460 + doe / 36524 - doe / 146096) / 365 in
  let doy := doe - (365 * yoe + yoe / 4 - yoe / 100) in
  let mp := (5 * doy + 2) / 153 in
  let d := doy - (153 * mp + 2) / 5 + 1 in
  let m := if mp <? 10 then mp + 3 else mp - 9 in
  let y := yoe + era * 400 + (if m <=? 2 then 1 else 0) in
  (y, m, d).

Definition daysFromCivil (y m d : Z) : Z :=
  let y := if m <=? 2 then y - 1 else y in
  let era := y / 400 in
  let yoe := y - era * 400 in
  let doy := (153 * (if 2 <? m then m - 3 else m + 9) + 2) / 5 + d - 1 in
  let doe := yoe * 365 + yoe / 4 - yoe / 100 + doy in
  era * 146097 + doe - 719468.

Definition pad (width : nat) (n : Z) : string :=
  let s := pretty n in
  String.concat "" (replicate (width - String.length s) "0") +:+ s.

Definition digits (s : string) : Z :=
  foldl (λ n c, n * 10 + (Z.of_N (Ascii.N_of_ascii c) - 48)) 0 (String.list_ascii_of_string s).

(** Modelled from the spec: data/lib/time is not among the sources.  The
    DateKey is the canonical UTC day string YYYY-MM-DD, and an adapter keys
    its query by the day-boundary timestamp in epoch seconds. *)
Definition isoTime : Time :=
  {| formatDate := λ date,
       let '(y, m, d) := civilFromDays (date / 86400000) in
       pad 4 y +:+ "-" +:+ pad 2 m +:+ "-" +:+ pad 2 d;
     dateToTimestamp := λ s,
       daysFromCivil (digits (String.substring 0 4 s))
                     (digits (String.substring 5 2 s))
                     (digits (String.substring 8 2 s)) * 86400 |}.

(** ** Vocabulary of the specification *)

(** The arithmetic mean of a list of values. *)
Definition mean (l : list Q) : Q :=
  (foldr Qplus 0 l / inject_Z (Z.of_nat (length l)))%Q.

(** The rational number a finite double stands for (0 for the others). *)
Definition exactValue (f : float) : Q :=
  match Prim2SF f with
  | S754_finite s m e =>
      ((if s then - inject_Z (Z.pos m) else inject_Z (Z.pos m)) * Qpower 2 e)%Q
  | _ => 0%Q
  end.

(** Modelled from the spec: the mean as doubles give it, the values added
    from the first on and the sum divided by their number, each operation
    rounded. *)
Definition floatMean (l : list float) : float :=
  match l with
  | [] => nan
  | f :: fs => (foldl PrimFloat.add f fs / toNumber (Z.of_nat (length l)))%float
  end.

(** The runtime's local time keeps one offset from UTC (no daylight saving
    time, as in UTC itself). *)
Definition fixedOffset `{TimeZone} : Prop :=
  ∃ c, ∀ t, utcOffset t = c ∧ localOffset t = c.

(** Modelled from the spec: the days of a window, the instants [minDate],
    [minDate] plus one day, ... that are not after [maxDate]. *)
Definition windowDays (minDate maxDate : Date) : list Date :=
  (λ k, minDate + k * 86400000) <$> seqZ 0 ((maxDate - minDate) / 86400000 + 1).

Section SpecVocabulary.
Context `{TimeZone} `{Time}.

(** The fee the store holds for a protocol at the key of an instant (0 where
    it holds none). *)
Definition feeOn (data : FeeStore) (id : string) (d : Date) : float :=
  from_option fee 0%float (cell data id (formatDate d)).

(** The store holds a cell for the protocol at the key of every day of the
    window [from, to]. *)
Definition populated (data : FeeStore) (id : string) (from to : Date) : Prop :=
  ∀ k, 0 <= k → from + k * 86400000 <= to →
       is_Some (cell data id (formatDate (from + k * 86400000))).

(** What one point of the series is, for the instant it was computed for. *)
Definition pointOf (data : FeeStore) (primaryId : string)
  (secondaryId : option string) (s : Z) (d : Date) (pt : Point.t) : Prop :=
  Point.date pt = (toNumber (getTime d) / 1000)%float
  ∧ getDateWithSmoothing data primaryId d s = Ok (Point.primary pt)
  ∧ whenSet secondaryId (λ id, getDateWithSmoothing data id d s) (Ok 0%float)
    = Ok (Point.secondary pt).

(** Modelled from the spec: the value of a protocol at an instant for the
    smoothing factor [s], the stored fee for [s = 0] and otherwise the mean
    of the [s + 1] fees stored at the keys of the instant and of the [s]
    days before it, subDays(d, 1), ..., subDays(d, s). *)
Definition smoothedFee (data : FeeStore) (id : string) (d : Date) (s : Z) : float :=
  if 0 <? s
  then floatMean (feeOn data id d :: ((λ i, feeOn data id (subDays d i)) <$> seqZ 1 s))
  else feeOn data id d.

(** Modelled from the spec: the point of the series for an instant, its
    timestamp in epoch seconds with the value of the primary protocol and of
    the secondary one (0 when none is selected). *)
Definition pointAt (data : FeeStore) (primaryId : string)
  (secondaryId : option string) (s : Z) (d : Date) : Point.t :=
  {| Point.date := (toNumber (getTime d) / 1000)%float;
     Point.primary := smoothedFee data primaryId d s;
     Point.secondary := whenSet secondaryId (λ id, smoothedFee data id d s) 0%float |}.

(** Modelled from the spec: the derived series, one point per day of the
    window. *)
Definition seriesOf (data : FeeStore) (p : Params) : list Point.t :=
  pointAt data (primary p) (secondary p) (smoothing p)
    <$> windowDays (start (dateRange p)) (end_ (dateRange p)).

End SpecVocabulary.

(** The network that answers every call with [data]. *)
Definition answering (data : GraphData) : Upstream := λ _, Ok data.

(** The volume of the blacklisted pairs as getUniswapV2Data accumulates it. *)
Definition blacklistVolume (data : GraphData) : float :=
  foldl (λ total day, (total + dailyVolumeUSD day)%float) 0%float (blacklist data).

(** [0 <= x] on doubles: it holds for both zeros and for +Infinity, and
    fails for NaN. *)
Definition nonneg (x : float) : Prop := PrimFloat.leb 0 x = true.

(** A double that is neither NaN nor an infinity. *)
Definition finite (x : float) : Prop :=
  match Prim2SF x with
  | S754_zero _ | S754_finite _ _ _ => True
  | _ => False
  end.

(** An answer an adapter can be trusted on: the fees and the volume of the
    day's row are not negative, its volume is a finite number and the
    blacklisted pairs traded no more than the whole exchange, by the sum the
    adapter makes. *)
Definition plausible (data : GraphData) : Prop :=
  ∀ row, last (uniswapDayDatas data) = Some row →
    nonneg (feesUSD row)
    ∧ nonneg (dailyVolumeInUSD row)
    ∧ finite (dailyVolumeUSD row)
    ∧ PrimFloat.leb (blacklistVolume data) (dailyVolumeUSD row) = true.

(** The assignment [storedFees[id][date] = data] of line 71, as saveFeeData
    folds it over the records of one protocol. *)
Abbreviation writeRecord id :=
  (λ (storedFees : FeeStore) (r : FeeRecord.t),
     <[id := <[FeeRecord.date r := FeeRecord.attrs r]> (default ∅ (storedFees !! id))]>
       storedFees).

(** The writes a response asks for, in the order saveFeeData performs them:
    protocol id, date key, cell. *)
Definition writes (response : list ProtocolFees.t) : list (string * string * Cell) :=
  response ≫= λ protocol,
    (λ r, (ProtocolFees.id protocol, FeeRecord.date r, FeeRecord.attrs r))
      <$> ProtocolFees.data protocol.

(** The last cell a response writes at (id, key), if it writes there. *)
Definition lastWrite (response : list ProtocolFees.t) (id key : string) : option Cell :=
  snd <$> last (filter (λ w, w.1 = (id, key)) (writes response)).

(** The response carries a record of the protocol for each of the keys. *)
Definition covers (response : list ProtocolFees.t) (id : string) (keys : list string)
  : Prop :=
  ∀ key, key ∈ keys → is_Some (lastWrite response id key).

(** ** Data of the worked examples *)

(** Midnight UTC of the day with the given number (days since the epoch). *)
Definition utcMidnight (day : Z) : Date := day * 86400000.

(** A check of [populated] that computes. *)
Definition populatedb `{Time} (data : FeeStore) (id : string) (from to : Date) : bool :=
  forallb (λ k, bool_decide (is_Some (cell data id (formatDate (from + k * 86400000)))))
          (seqZ 0 ((to - from) / 86400000 + 1)).

(** A check of [covers] that computes. *)
Definition coversb (response : list ProtocolFees.t) (id : string) (keys : list string)
  : bool :=
  forallb (λ key, bool_decide (is_Some (lastWrite response id key))) keys.

(** A check of [plausible] that computes. *)
Definition plausibleb (data : GraphData) : bool :=
  match last (uniswapDayDatas data) with
  | None => true
  | Some row =>
      PrimFloat.leb 0 (feesUSD row)
      && PrimFloat.leb 0 (dailyVolumeInUSD row)
      && match Prim2SF (dailyVolumeUSD row) with
         | S754_zero _ | S754_finite _ _ _ => true
         | _ => false
         end
      && PrimFloat.leb (blacklistVolume data) (dailyVolumeUSD row)
  end.

Section ExampleData.
Local Existing Instance isoTime.

(** A store holding, for one protocol, the fees [fs] on the consecutive days
    that start at [from]. *)
Definition storeOf (id : string) (from : Date) (fs : list float) : FeeStore :=
  {[ id := list_to_map (zip (formatDate <$> windowDays from
                                              (from + (Z.of_nat (length fs) - 1) * 86400000))
                            ((λ f, {| fee := f |}) <$> fs)) ]}.

(** The body the query service answers with for one protocol: [success:
    true] and the fees [fs] on the consecutive days that start at [from]. *)
Definition answer (id : string) (from : Date) (fs : list float) : Response.t :=
  {| Response.success := true;
     Response.data :=
       [ {| ProtocolFees.id := id;
            ProtocolFees.data :=
              zip_with (λ d f, {| FeeRecord.date := formatDate d;
                                  FeeRecord.attrs := {| fee := f |} |})
                       (windowDays from (from + (Z.of_nat (length fs) - 1) * 86400000))
                       fs |} ] |}.

(** 2021-06-01 is day 18779. uniswap-v2 on 2021-06-01 .. 2021-06-10. *)
Definition tenDays : FeeStore :=
  storeOf "uniswap-v2" (utcMidnight 18779) (replicate 10 5%float).

(** uniswap-v2 with the fees 10, 20, 30 on 2021-06-01 .. 2021-06-03. *)
Definition threeDays : FeeStore :=
  storeOf "uniswap-v2" (utcMidnight 18779) [10; 20; 30]%float.

(** uniswap-v2 with the fee 0.1 on each of 2021-06-01 .. 2021-06-03. *)
Definition threeTenths : FeeStore :=
  storeOf "uniswap-v2" (utcMidnight 18779) [0.1; 0.1; 0.1]%float.

(** Two protocols on 2021-06-01 .. 2021-06-10. *)
Definition twoProtocols : FeeStore :=
  storeOf "uniswap-v2" (utcMidnight 18779) (replicate 10 5%float)
  ∪ storeOf "uniswap-v3" (utcMidnight 18779) (replicate 10 9%float).

(** A window inside what [twoProtocols] holds, with two days of smoothing. *)
Definition pHeld : Params :=
  {| dateRange := {| start := utcMidnight 18781; end_ := utcMidnight 18788 |};
     primary := "uniswap-v2"; secondary := Some "uniswap-v3"; smoothing := 2 |}.

(** Request A: 2021-06-11 .. 2021-06-12; request B: 2021-06-13 .. 2021-06-14. *)
Definition pA : Params :=
  {| dateRange := {| start := utcMidnight 18789; end_ := utcMidnight 18790 |};
     primary := "uniswap-v2"; secondary := None; smoothing := 0 |}.

Definition pB : Params :=
  {| dateRange := {| start := utcMidnight 18791; end_ := utcMidnight 18792 |};
     primary := "uniswap-v2"; secondary := None; smoothing := 0 |}.

Definition fetchA : Fetch :=
  {| url := "/api/v1/feesByDay?uniswap-v2=2021-06-11,2021-06-12&";
     closure := pA; settled := false |}.

Definition fetchB : Fetch :=
  {| url := "/api/v1/feesByDay?uniswap-v2=2021-06-13,2021-06-14&";
     closure := pB; settled := false |}.

Definition answerA : Response.t := answer "uniswap-v2" (utcMidnight 18789) [1; 2]%float.
Definition answerB : Response.t := answer "uniswap-v2" (utcMidnight 18791) [7; 8]%float.

Definition failure : Response.t :=
  {| Response.success := false; Response.data := [] |}.

Definition seriesA : list Point.t :=
  [ {| Point.date := 1623369600; Point.primary := 1; Point.secondary := 0 |};
    {| Point.date := 1623456000; Point.primary := 2; Point.secondary := 0 |} ].

Definition seriesB : list Point.t :=
  [ {| Point.date := 1623542400; Point.primary := 7; Point.secondary := 0 |};
    {| Point.date := 1623628800; Point.primary := 8; Point.secondary := 0 |} ].

(** The series formatData gives for uniswap-v2 on 2021-06-01 .. 2021-06-02 of
    [tenDays]. *)
Definition twoPoints : list Point.t :=
  [ {| Point.date := 1622505600; Point.primary := 5; Point.secondary := 0 |};
    {| Point.date := 1622592000; Point.primary := 5; Point.secondary := 0 |} ].

(** The days around the two changes of New York's clock in 2021: 2021-03-12
    is day 18698 and 2021-11-05 is day 18936.  A store that holds uniswap-v2
    on each UTC day from 2021-11-03 to 2021-11-12, and a request for
    2021-11-10 .. 2021-11-12 smoothed over 7 days. *)
Definition novemberDays : FeeStore :=
  storeOf "uniswap-v2" (utcMidnight 18934) (replicate 10 5%float).

Definition pNovember : Params :=
  {| dateRange := {| start := utcMidnight 18941; end_ := utcMidnight 18943 |};
     primary := "uniswap-v2"; secondary := None; smoothing := 7 |}.

(** A store that holds uniswap-v2 on each UTC day from 2021-11-05 to
    2021-11-09. *)
Definition fallBackDays : FeeStore :=
  storeOf "uniswap-v2" (utcMidnight 18936) (replicate 5 5%float).

(** Subgraph answers: no rows; a day on which the blacklisted pairs traded
    less than the exchange; a day on which they are reported to have traded
    more. *)
Definition volumeRow (v : float) : DayData :=
  {| feesUSD := 0; dailyVolumeUSD := v; dailyVolumeInUSD := 0 |}.

Definition noRows : GraphData := {| uniswapDayDatas := []; blacklist := [] |}.

Definition plausibleDay : GraphData :=
  {| uniswapDayDatas := [volumeRow 1000]; blacklist := [volumeRow 200; volumeRow 100] |}.

Definition blacklistHeavyDay : GraphData :=
  {| uniswapDayDatas := [volumeRow 100]; blacklist := [volumeRow 200] |}.

(** 2021-08-30 is day 18869: the page is built at 01:00 UTC and rendered at
    noon; the 90 days before are 2021-06-01 .. 2021-08-29. *)
Definition buildTime : Date := utcMidnight 18869 + 3600000.
Definition renderTime : Date := utcMidnight 18869 + 43200000.

(** The second reading of the clock, a millisecond after the first. *)
Definition later (now : Date) : Date := now + 1.

Definition ninetyDays : list FeeRecord.t :=
  (λ d, {| FeeRecord.date := formatDate d; FeeRecord.attrs := {| fee := 1 |} |})
    <$> windowDays (utcMidnight 18779) (utcMidnight 18868).

(** A query service that answers with those 90 records, and a registry of two
    protocols. *)
Definition queryService (id : string) (from to : Date) : Result (list FeeRecord.t) :=
  Ok ninetyDays.

Definition twoIDs : list string := ["uniswap-v2"; "uniswap-v1"].

Definition metadataOf (id : string) : Metadata :=
  if String.eqb id "uniswap-v1" then v1Metadata else v2Metadata.

Definition builtProps : StaticProps.t :=
  {| StaticProps.id := "uniswap-v2";
     StaticProps.metadata := v2Metadata;
     StaticProps.feeCache := {[ "uniswap-v2" := defaultFeesOf ninetyDays ]};
     StaticProps.protocols :=
       {[ "uniswap-v1" := "Uniswap V1"; "uniswap-v2" := "Uniswap V2" ]} |}.

End ExampleData.

(** * Properties *)

(** ** Doubles *)

(** A double is a primitive float of the kernel; what its operations compute
    is given by [Prim2SF] and the functions of [SpecFloat].  The lemmas of
    this section are what the claims need of IEEE 754 arithmetic: sums,
    products, quotients and differences keep the sign one expects, and the
    rounding of a conversion or of a division by 1000 moves a value by a
    bounded amount. *)

Section Doubles.

Lemma shr_1_nonneg (mrs : shr_record) : 0 <= shr_m mrs → 0 <= shr_m (shr_1 mrs).
Proof.
  destruct mrs as [m r s]. simpl. destruct m as [|p|p]; [done| |lia].
  intros _. destruct p; simpl; lia.
Qed.

Lemma iter_pos_nonneg (p : positive) (mrs : shr_record) :
  0 <= shr_m mrs → 0 <= shr_m (iter_pos shr_1 p mrs).
Proof.
  revert mrs. induction p as [p IH | p IH |]; intros mrs Hm; simpl.
  - apply IH, IH, shr_1_nonneg, Hm.
  - apply IH, IH, Hm.
  - by apply shr_1_nonneg.
Qed.

Lemma shr_fexp_nonneg (m e : Z) (l : location) :
  0 <= m → 0 <= shr_m (shr_fexp prec emax m e l).1.
Proof.
  intros Hm. unfold shr_fexp, shr.
  assert (H0 : 0 <= shr_m (shr_record_of_loc m l)) by (by destruct l as [|[]]).
  destruct (fexp prec emax (Zdigits2 m + e) - e); simpl; [done| |done].
  by apply iter_pos_nonneg.
Qed.

Lemma round_nearest_even_nonneg (m : Z) (l : location) :
  0 <= m → 0 <= round_nearest_even m l.
Proof.
  intros Hm. unfold round_nearest_even. destruct l as [|[]]; try lia.
  destruct (IntDef.Z.even m); lia.
Qed.

(** Rounding a magnitude with a positive sign gives +0, a positive double or
    +Infinity. *)
Lemma binary_round_aux_nonneg (m e : Z) (l : location) :
  0 <= m → SFleb (S754_zero false) (binary_round_aux prec emax false m e l) = true.
Proof.
  intros Hm. unfold binary_round_aux.
  pose proof (shr_fexp_nonneg m e l Hm) as H1.
  destruct (shr_fexp prec emax m e l) as [mrs' e']. simpl in H1.
  pose proof (shr_fexp_nonneg (round_nearest_even (shr_m mrs') (loc_of_shr_record mrs'))
                e' loc_Exact (round_nearest_even_nonneg _ _ H1)) as H2.
  destruct (shr_fexp prec emax _ e' loc_Exact) as [mrs'' e'']. simpl in H2.
  destruct (shr_m mrs'') as [|p|p]; [done| |lia].
  by destruct (e'' <=? emax - prec).
Qed.

Lemma binary_normalize_nonneg (m e : Z) :
  0 <= m → SFleb (S754_zero false) (binary_normalize prec emax m e false) = true.
Proof.
  destruct m as [|p|p]; [done| |lia]. intros _. unfold binary_normalize, binary_round.
  destruct (shl_align p e _) as [mz ez]. by apply binary_round_aux_nonneg.
Qed.

(** Multiplying by a positive constant keeps a double that is not negative
    so. *)
Lemma mul_nonneg (x c : float) (mc : positive) (ec : Z) :
  Prim2SF c = S754_finite false mc ec → nonneg x → nonneg (x * c).
Proof.
  unfold nonneg. intros Hc. rewrite !FloatAxioms.leb_spec, FloatAxioms.mul_spec, Hc.
  change (Prim2SF 0) with (S754_zero false).
  destruct (Prim2SF x) as [s|s| |s m e]; simpl; try done.
  - by destruct s.
  - destruct s; [done|]. intros _. unfold SF64mul. simpl.
    by apply binary_round_aux_nonneg.
Qed.

(** Adding two doubles that are not negative gives one that is not. *)
Lemma add_nonneg (x y : float) : nonneg x → nonneg y → nonneg (x + y).
Proof.
  unfold nonneg. rewrite !FloatAxioms.leb_spec, FloatAxioms.add_spec.
  change (Prim2SF 0) with (S754_zero false).
  destruct (Prim2SF x) as [sx|sx| |sx mx ex], (Prim2SF y) as [sy|sy| |sy my ey];
    try done; try (by destruct sx); try (by destruct sy); try (by destruct sx, sy).
  destruct sx, sy; try done. intros _ _. unfold SF64add, SFadd.
  apply binary_normalize_nonneg. simpl. lia.
Qed.

(** Dividing a double that is not negative by a positive one gives one that
    is not negative. *)
Lemma div_nonneg (x c : float) (mc : positive) (ec : Z) :
  Prim2SF c = S754_finite false mc ec → nonneg x → nonneg (x / c).
Proof.
  unfold nonneg. intros Hc. rewrite !FloatAxioms.leb_spec, FloatAxioms.div_spec, Hc.
  change (Prim2SF 0) with (S754_zero false).
  destruct (Prim2SF x) as [s|s| |s m e]; simpl; try done.
  - by destruct s.
  - destruct s; [done|]. intros _. unfold SFdiv_core_binary.
    set (m' := match _ with 0 => Z.pos m | Z.pos _ => _ | Z.neg _ => 0 end).
    assert (Hm' : 0 <= m').
    { subst m'. destruct (_ - _ - _); [lia | | lia]. apply Z.shiftl_nonneg. lia. }
    assert (Hq : Z.div_eucl m' (Z.pos mc) = (m' / Z.pos mc, m' mod Z.pos mc)).
    { unfold Z.div, Z.modulo. by destruct (Z.div_eucl _ _). }
    change (IntDef.Z.div_eucl) with Z.div_eucl. rewrite Hq.
    apply binary_round_aux_nonneg. apply Z.div_pos; lia.
Qed.

Lemma shift_value (m d : positive) : Z.pos (Pos.iter xO m d) = Z.pos m * 2 ^ Z.pos d.
Proof.
  induction d as [|d IH] using Pos.peano_ind.
  - simpl. lia.
  - rewrite Pos.iter_succ, Pos2Z.inj_succ, Z.pow_succ_r by lia.
    rewrite Pos2Z.inj_xO, IH. lia.
Qed.

Lemma shl_align_value (m : positive) (e e' : Z) :
  e' <= e → Z.pos (shl_align m e e').1 = Z.pos m * 2 ^ (e - e').
Proof.
  intros He. unfold shl_align. destruct (e' - e) as [|d|d] eqn:Hd; simpl.
  - replace (e - e') with 0 by lia. lia.
  - lia.
  - rewrite shift_value. f_equal. f_equal. lia.
Qed.

Lemma digits2_size (m : positive) : digits2_pos m = Pos.size m.
Proof. induction m; simpl; by f_equal. Qed.

(** The mantissa of a double has at most 53 bits, and exactly 53 above the
    least exponent. *)
Lemma canonical_bounds (m : positive) (e : Z) :
  canonical_mantissa prec emax m e = true →
  Z.pos m < 2 ^ 53 ∧ emin <= e ∧ (emin < e → 2 ^ 52 <= Z.pos m).
Proof.
  unfold canonical_mantissa, fexp. rewrite digits2_size. intros Hc%Z.eqb_eq.
  pose proof (Pos.size_gt m) as Hgt. pose proof (Pos.size_le m) as Hle.
  apply Pos2Z.pos_lt_pos in Hgt. apply Pos2Z.pos_le_pos in Hle.
  rewrite Pos2Z.inj_pow in Hgt, Hle. rewrite Pos2Z.inj_xO in Hle.
  change (Z.pos 2) with 2 in *. unfold prec in *.
  split; [|split].
  - assert (Z.pos (Pos.size m) <= 53) by lia.
    pose proof (Z.pow_le_mono_r 2 (Z.pos (Pos.size m)) 53). lia.
  - lia.
  - intros He. assert (Hs : Z.pos (Pos.size m) = 53) by lia. rewrite Hs in Hle.
    change (2 ^ 53) with (2 * 2 ^ 52) in Hle. lia.
Qed.

Lemma aligned_le (m1 : positive) (e1 : Z) (m2 : positive) (e2 : Z) :
  canonical_mantissa prec emax m1 e1 = true →
  canonical_mantissa prec emax m2 e2 = true →
  match e1 ?= e2 with
  | Eq => Pos.compare_cont Eq m1 m2
  | Lt => Lt
  | Gt => Gt
  end ≠ Gt →
  Z.pos (shl_align m1 e1 (Z.min e1 e2)).1 <= Z.pos (shl_align m2 e2 (Z.min e1 e2)).1.
Proof.
  intros (H1 & Hmin1 & _)%canonical_bounds (_ & _ & H2)%canonical_bounds Hcmp.
  rewrite !shl_align_value by lia.
  destruct (Z.compare_spec e1 e2) as [-> | Hlt | Hgt]; [| |done].
  - rewrite Z.min_id, Z.sub_diag, Z.pow_0_r.
    change (Pos.compare_cont Eq m1 m2) with (m1 ?= m2)%positive in Hcmp.
    change (m1 <= m2)%positive in Hcmp. lia.
  - rewrite Z.min_l by lia. rewrite Z.sub_diag, Z.pow_0_r.
    pose proof (Z.pow_le_mono_r 2 1 (e2 - e1)). rewrite Z.pow_1_r in *. nia.
Qed.

(** Taking a double from one that is not below it leaves a double that is
    not negative. *)
Lemma sub_nonneg (x y : float) :
  finite x → PrimFloat.leb y x = true → nonneg (x - y).
Proof.
  unfold finite, nonneg. rewrite !FloatAxioms.leb_spec, FloatAxioms.sub_spec.
  change (Prim2SF 0) with (S754_zero false).
  pose proof (Prim2SF_valid x) as Hx. pose proof (Prim2SF_valid y) as Hy.
  destruct (Prim2SF x) as [sx|sx| |sx mx ex]; [|done|done|];
    destruct (Prim2SF y) as [sy|sy| |sy my ey]; try done.
  - by destruct sx, sy.
  - by destruct sy.
  - by destruct sy.
  - by destruct sy.
  - intros _ Hle. unfold SF64sub, SFsub.
    simpl in Hx, Hy. unfold bounded in Hx, Hy.
    apply andb_prop in Hx as [Hx _]. apply andb_prop in Hy as [Hy _].
    apply binary_normalize_nonneg.
    unfold SFleb, SFcompare in Hle.
    destruct sx, sy; simpl in Hle |- *; try done; try lia.
    + pose proof (aligned_le mx ex my ey Hx Hy) as Hal.
      rewrite (Z.compare_antisym ex ey) in Hle.
      destruct (ex ?= ey); simpl in Hle; try done.
      * change (Pos.compare_cont Eq my mx) with (my ?= mx)%positive in Hle.
        rewrite (Pos.compare_antisym mx my) in Hle.
        change (Pos.compare_cont Eq mx my) with (mx ?= my)%positive in Hal.
        destruct (mx ?= my)%positive; simpl in Hle; try done; specialize (Hal ltac:(done)); lia.
      * specialize (Hal ltac:(done)). lia.
    + pose proof (aligned_le my ey mx ex Hy Hx) as Hal.
      rewrite (Z.min_comm ey ex) in Hal.
      destruct (ey ?= ex); try done.
      * destruct (Pos.compare_cont Eq my mx); try done; specialize (Hal ltac:(done)); lia.
      * specialize (Hal ltac:(done)). lia.
Qed.


(** *** Rounding, within bounds *)

Lemma Zdigits2_bounds (m : Z) :
  0 < m → 2 ^ (Zdigits2 m - 1) <= m < 2 ^ Zdigits2 m.
Proof.
  destruct m as [|p|p]; try lia. intros _.
  change (Zdigits2 (Z.pos p)) with (Z.pos (digits2_pos p)). rewrite digits2_size.
  pose proof (Pos.size_gt p) as Hgt. pose proof (Pos.size_le p) as Hle.
  apply Pos2Z.pos_lt_pos in Hgt. apply Pos2Z.pos_le_pos in Hle.
  rewrite Pos2Z.inj_pow in Hgt, Hle. rewrite (Pos2Z.inj_xO p) in Hle.
  replace (Z.pos (Pos.size p)) with (Z.succ (Z.pos (Pos.size p) - 1)) in Hle by lia.
  rewrite Z.pow_succ_r in Hle by lia. lia.
Qed.

Lemma Zdigits2_le (m k : Z) : 0 <= m → 0 <= k → m < 2 ^ k → Zdigits2 m <= k.
Proof.
  intros Hm Hk Hlt. destruct (Z.eq_dec m 0) as [-> | Hne]; [done|].
  destruct (Zdigits2_bounds m) as [Hlo _]; [lia|].
  destruct (Z.le_gt_cases (Zdigits2 m) k) as [|Hgt]; [done|]. exfalso.
  pose proof (Z.pow_le_mono_r 2 k (Zdigits2 m - 1)). lia.
Qed.

Lemma Zdigits2_ge (m k : Z) : 0 <= k → 2 ^ k <= m → k + 1 <= Zdigits2 m.
Proof.
  intros Hk Hle. assert (0 < m) by (pose proof (Z.pow_pos_nonneg 2 k); lia).
  destruct (Zdigits2_bounds m) as [_ Hhi]; [done|].
  destruct (Z.le_gt_cases (k + 1) (Zdigits2 m)) as [|Hgt]; [done|]. exfalso.
  assert (0 <= Zdigits2 m) by (destruct m; simpl; lia).
  pose proof (Z.pow_le_mono_r 2 (Zdigits2 m) k). lia.
Qed.

Lemma shr_1_m (mrs : shr_record) :
  0 <= shr_m mrs → shr_m (shr_1 mrs) = shr_m mrs / 2.
Proof.
  destruct mrs as [m r s]. destruct m as [|[p|p|]|p]; cbn [shr_1 shr_m]; try done.
  - intros _. rewrite (Pos2Z.inj_xI p). Z.div_mod_to_equations. lia.
  - intros _. rewrite (Pos2Z.inj_xO p). Z.div_mod_to_equations. lia.
Qed.

Lemma iter_shr_m (p : positive) (mrs : shr_record) :
  0 <= shr_m mrs → shr_m (iter_pos shr_1 p mrs) = shr_m mrs / 2 ^ Z.pos p.
Proof.
  revert mrs. induction p as [p IH | p IH |]; intros mrs Hm; simpl iter_pos.
  - rewrite IH by (by apply iter_pos_nonneg, shr_1_nonneg).
    rewrite IH by (by apply shr_1_nonneg). rewrite shr_1_m by done.
    rewrite !Z.div_div by lia. f_equal.
    rewrite (Pos2Z.inj_xI p).
    replace (2 * Z.pos p + 1) with (1 + Z.pos p + Z.pos p) by lia.
    rewrite !Z.pow_add_r, Z.pow_1_r by lia. ring.
  - rewrite IH by (by apply iter_pos_nonneg). rewrite IH by done.
    rewrite !Z.div_div by lia. f_equal.
    rewrite (Pos2Z.inj_xO p).
    replace (2 * Z.pos p) with (Z.pos p + Z.pos p) by lia.
    by rewrite Z.pow_add_r by lia.
  - rewrite shr_1_m by done. done.
Qed.

Lemma shr_fexp_spec (m e : Z) (l : location) :
  0 <= m →
  ∃ n, 0 <= n
       ∧ e + n = Z.max e (fexp prec emax (Zdigits2 m + e))
       ∧ shr_m (shr_fexp prec emax m e l).1 = m / 2 ^ n
       ∧ (shr_fexp prec emax m e l).2 = e + n.
Proof.
  intros Hm. unfold shr_fexp, shr.
  assert (H0 : shr_m (shr_record_of_loc m l) = m) by (by destruct l as [|[]]).
  destruct (fexp prec emax (Zdigits2 m + e) - e) as [|p|p] eqn:Hn; simpl.
  - exists 0. rewrite H0, Z.pow_0_r, Z.div_1_r. lia.
  - exists (Z.pos p). rewrite iter_shr_m, H0 by lia. lia.
  - exists 0. rewrite H0, Z.pow_0_r, Z.div_1_r. lia.
Qed.

Lemma round_nearest_even_bounds (m : Z) (l : location) :
  m <= round_nearest_even m l <= m + 1.
Proof.
  unfold round_nearest_even. destruct l as [|[]]; try lia.
  destruct (IntDef.Z.even m); lia.
Qed.

(** What rounding to a double does to a positive magnitude [m] at exponent
    [e]: the exponent goes up by [k], at most to one above what the number
    of digits asks for, and the mantissa is within two units of [m / 2^k]. *)
Lemma binary_round_aux_bounds (sx : bool) (m e : Z) (l : location) :
  0 <= m →
  ∃ m'' k,
    binary_round_aux prec emax sx m e l
    = match m'' with
      | 0 => S754_zero sx
      | Z.pos p => if e + k <=? emax - prec then S754_finite sx p (e + k)
                   else S754_infinity sx
      | Z.neg _ => S754_nan
      end
    ∧ 0 <= m'' ∧ 0 <= k
    ∧ e + k <= Z.max (Z.max e (Zdigits2 m + e - 52)) emin
    ∧ m - 2 * 2 ^ k <= m'' * 2 ^ k <= m + 2 ^ k.
Proof.
  intros Hm. unfold binary_round_aux.
  destruct (shr_fexp_spec m e l Hm) as (n & Hn & Hen & Hm' & He').
  destruct (shr_fexp prec emax m e l) as [mrs' e']. simpl in Hm', He'. subst e'.
  set (m1 := round_nearest_even (shr_m mrs') (loc_of_shr_record mrs')).
  pose proof (round_nearest_even_bounds (shr_m mrs') (loc_of_shr_record mrs')) as Hm1.
  fold m1 in Hm1. rewrite Hm' in Hm1.
  assert (Hpn : 0 < 2 ^ n) by (by apply Z.pow_pos_nonneg).
  assert (Hdiv : 0 <= m / 2 ^ n) by (by apply Z.div_pos).
  assert (Hm1' : 0 <= m1) by lia.
  destruct (shr_fexp_spec m1 (e + n) loc_Exact Hm1') as (n2 & Hn2 & Hen2 & Hm'' & He'').
  destruct (shr_fexp prec emax m1 (e + n) loc_Exact) as [mrs'' e'']. simpl in Hm'', He''.
  subst e''.
  assert (Hpn2 : 0 < 2 ^ n2) by (by apply Z.pow_pos_nonneg).
  exists (shr_m mrs''), (n + n2).
  replace (e + (n + n2)) with (e + n + n2) by lia.
  split; [done|]. rewrite Hm''.
  split; [by apply Z.div_pos|]. split; [lia|].
  pose proof (Z.mul_div_le m (2 ^ n) Hpn) as Hlo.
  pose proof (Z.mul_succ_div_gt m (2 ^ n) Hpn) as Hhi.
  pose proof (Z.mul_div_le m1 (2 ^ n2) Hpn2) as Hlo2.
  pose proof (Z.mul_succ_div_gt m1 (2 ^ n2) Hpn2) as Hhi2.
  split.
  - (* the exponent *)
    assert (Hdig : Zdigits2 m1 + (e + n) <= Z.max (e + n + 1) (Zdigits2 m + e + 1)).
    { destruct (Z.eq_dec m 0) as [-> | Hne].
      { rewrite Z.div_0_l in Hm1 by lia.
        assert (Zdigits2 m1 <= 1) by (apply Zdigits2_le; lia). lia. }
      destruct (Zdigits2_bounds m) as [Hdlo Hdhi]; [lia|].
      assert (Hd : 0 <= Zdigits2 m) by (destruct m; simpl; lia).
      destruct (Z.le_gt_cases n (Zdigits2 m)) as [Hle | Hgt].
      - assert (Zdigits2 m1 <= Zdigits2 m - n + 1); [|lia].
        apply Zdigits2_le; [lia | lia |].
        rewrite Z.pow_add_r, Z.pow_1_r by lia.
        assert (m / 2 ^ n < 2 ^ (Zdigits2 m - n)); [|lia].
        apply Z.div_lt_upper_bound; [lia|].
        rewrite <- Z.pow_add_r by lia. by replace (n + (Zdigits2 m - n)) with (Zdigits2 m) by lia.
      - assert (m / 2 ^ n = 0) as Hz.
        { apply Z.div_small. split; [lia|].
          pose proof (Z.pow_le_mono_r 2 (Zdigits2 m) n). lia. }
        rewrite Hz in Hm1. assert (Zdigits2 m1 <= 1) by (apply Zdigits2_le; lia). lia. }
    unfold fexp, emin, SpecFloat.emin, prec, emax in *. lia.
  - rewrite Z.pow_add_r by lia. nia.
Qed.


Lemma shl_align_exp (m : positive) (e e' : Z) :
  e' <= e → (shl_align m e e').2 = e'.
Proof.
  intros He. unfold shl_align. destruct (e' - e) as [|d|d] eqn:Hd; simpl; lia.
Qed.

(** The number of an integer that a 63-bit word holds. *)
Lemma toNumber_spec (z : Z) :
  0 <= z < 2 ^ 63 → Prim2SF (toNumber z) = binary_normalize prec emax z 0 false.
Proof.
  intros Hz. unfold toNumber.
  assert (Hn : binary_normalize prec emax z 0 false
               = Prim2SF (of_uint63 (Uint63Axioms.of_Z z))).
  { rewrite FloatAxioms.of_uint63_spec, Uint63.of_Z_spec, Z.mod_small; [done|].
    exact Hz. }
  by rewrite Hn, SF2Prim_Prim2SF.
Qed.

(** The double of a positive integer below 2^53, within bounds: its value is
    within 4 of the integer (it is the integer, but the bound is enough). *)
Lemma toNumber_bounds (a : Z) :
  0 < a < 2 ^ 53 →
  ∃ mx ex,
    Prim2SF (toNumber a) = S754_finite false mx ex
    ∧ -52 <= ex <= 1
    ∧ (a - 4) * 2 ^ 64 <= Z.pos mx * 2 ^ (ex + 64) <= (a + 2) * 2 ^ 64.
Proof.
  intros Ha. rewrite toNumber_spec by lia.
  destruct a as [|p|p]; try lia. unfold binary_normalize, binary_round.
  set (d := Z.pos (digits2_pos p)).
  assert (Hd : 1 <= d <= 53).
  { subst d. split; [lia|]. apply (Zdigits2_le (Z.pos p)); lia. }
  destruct (Zdigits2_bounds (Z.pos p)) as [Hplo Hphi]; [lia|].
  change (Zdigits2 (Z.pos p)) with d in Hplo, Hphi.
  assert (Hfexp : fexp prec emax (d + 0) = d - 53).
  { unfold fexp, emin, SpecFloat.emin, prec, emax. lia. }
  rewrite Hfexp.
  pose proof (shl_align_value p 0 (d - 53) ltac:(lia)) as Hmz.
  pose proof (shl_align_exp p 0 (d - 53) ltac:(lia)) as Hez.
  destruct (shl_align p 0 (d - 53)) as [mz ez]. simpl in Hmz, Hez. subst ez.
  replace (0 - (d - 53)) with (53 - d) in Hmz by lia.
  assert (Hp52 : 2 ^ 52 = 2 ^ (d - 1) * 2 ^ (53 - d)).
  { rewrite <- Z.pow_add_r by lia. f_equal. lia. }
  assert (Hp53 : 2 ^ 53 = 2 ^ d * 2 ^ (53 - d)).
  { rewrite <- Z.pow_add_r by lia. f_equal. lia. }
  assert (Hpos : 0 < 2 ^ (53 - d)) by (apply Z.pow_pos_nonneg; lia).
  assert (Hmzlo : 2 ^ 52 <= Z.pos mz) by (rewrite Hp52, Hmz; nia).
  assert (Hmzhi : Z.pos mz < 2 ^ 53) by (rewrite Hp53, Hmz; nia).
  assert (Hdz : Zdigits2 (Z.pos mz) <= 53) by (apply Zdigits2_le; lia).
  destruct (binary_round_aux_bounds false (Z.pos mz) (d - 53) loc_Exact ltac:(lia))
    as (m'' & k & -> & Hm'' & Hk & Hek & Hlo & Hhi).
  assert (Hk1 : k <= 1).
  { unfold emin, SpecFloat.emin, prec, emax in Hek. lia. }
  assert (Hpk : 1 <= 2 ^ k <= 2).
  { pose proof (Z.pow_le_mono_r 2 0 k). pose proof (Z.pow_le_mono_r 2 k 1).
    rewrite Z.pow_0_r, Z.pow_1_r in *. lia. }
  change (2 ^ 52) with 4503599627370496 in Hmzlo.
  destruct m'' as [|p''|p'']; [nia| |lia].
  assert ((d - 53 + k <=? emax - prec) = true) as ->.
  { apply Z.leb_le. unfold emax, prec. lia. }
  exists p'', (d - 53 + k). split; [done|]. split; [lia|].
  assert (Hscale : 2 ^ (d - 53 + k + 64) = 2 ^ k * 2 ^ (d + 11)).
  { rewrite <- Z.pow_add_r by lia. f_equal. lia. }
  assert (Hscale' : 2 ^ 64 = 2 ^ (53 - d) * 2 ^ (d + 11)).
  { rewrite <- Z.pow_add_r by lia. f_equal. lia. }
  assert (Hq : 0 < 2 ^ (d + 11)) by (apply Z.pow_pos_nonneg; lia).
  rewrite Hscale, Hscale'. rewrite Hmz in Hlo, Hhi.
  assert (Hunit : 2 ^ k <= 2 * 2 ^ (53 - d)) by lia.
  split.
  - replace (Z.pos p'' * (2 ^ k * 2 ^ (d + 11)))
      with (Z.pos p'' * 2 ^ k * 2 ^ (d + 11)) by ring.
    replace ((Z.pos p - 4) * (2 ^ (53 - d) * 2 ^ (d + 11)))
      with ((Z.pos p * 2 ^ (53 - d) - 4 * 2 ^ (53 - d)) * 2 ^ (d + 11)) by ring.
    apply Z.mul_le_mono_nonneg_r; lia.
  - replace (Z.pos p'' * (2 ^ k * 2 ^ (d + 11)))
      with (Z.pos p'' * 2 ^ k * 2 ^ (d + 11)) by ring.
    replace ((Z.pos p + 2) * (2 ^ (53 - d) * 2 ^ (d + 11)))
      with ((Z.pos p * 2 ^ (53 - d) + 2 * 2 ^ (53 - d)) * 2 ^ (d + 11)) by ring.
    apply Z.mul_le_mono_nonneg_r; lia.
Qed.


(** Two doubles in canonical form compare as their values do. *)
Lemma finite_lt (m1 : positive) (e1 : Z) (m2 : positive) (e2 L : Z) :
  canonical_mantissa prec emax m1 e1 = true →
  canonical_mantissa prec emax m2 e2 = true →
  0 <= e1 + L → 0 <= e2 + L →
  Z.pos m1 * 2 ^ (e1 + L) < Z.pos m2 * 2 ^ (e2 + L) →
  SFltb (S754_finite false m1 e1) (S754_finite false m2 e2) = true.
Proof.
  intros (_ & _ & H1)%canonical_bounds (H2 & Hmin2 & _)%canonical_bounds HL1 HL2 Hlt.
  unfold SFltb, SFcompare.
  destruct (Z.compare_spec e1 e2) as [-> | Hlt12 | Hgt12]; [|done|].
  - assert (0 < 2 ^ (e2 + L)) by (by apply Z.pow_pos_nonneg).
    change (Pos.compare_cont Eq m1 m2) with (m1 ?= m2)%positive.
    assert (Hm : (m1 < m2)%positive) by nia. by rewrite Hm.
  - exfalso. specialize (H1 ltac:(lia)).
    assert (Hp : 2 * 2 ^ (e2 + L) <= 2 ^ (e1 + L)).
    { rewrite <- Z.pow_succ_r by done. apply Z.pow_le_mono_r; lia. }
    assert (0 < 2 ^ (e2 + L)) by (by apply Z.pow_pos_nonneg).
    change (2 ^ 53) with (2 * 2 ^ 52) in H2. nia.
Qed.

Lemma finite_lt_neg (m1 : positive) (e1 : Z) (m2 : positive) (e2 L : Z) :
  canonical_mantissa prec emax m1 e1 = true →
  canonical_mantissa prec emax m2 e2 = true →
  0 <= e1 + L → 0 <= e2 + L →
  Z.pos m2 * 2 ^ (e2 + L) < Z.pos m1 * 2 ^ (e1 + L) →
  SFltb (S754_finite true m1 e1) (S754_finite true m2 e2) = true.
Proof.
  intros Hc1 Hc2 HL1 HL2 Hlt.
  pose proof (finite_lt m2 e2 m1 e1 L Hc2 Hc1 HL2 HL1 Hlt) as Hpos.
  unfold SFltb, SFcompare in *. rewrite (Z.compare_antisym e1 e2) in Hpos.
  destruct (e1 ?= e2); simpl in *; try done.
  change (Pos.compare_cont Eq m2 m1) with (m2 ?= m1)%positive in Hpos.
  change (Pos.compare_cont Eq m1 m2) with (m1 ?= m2)%positive.
  rewrite (Pos.compare_antisym m1 m2) in Hpos. by destruct (m1 ?= m2)%positive.
Qed.

(** Dividing a double of 53 bits by 1000, within bounds: 1000 times the
    quotient is within 18 of the dividend. *)
Lemma div_1000_bounds (s : bool) (mx : positive) (ex : Z) :
  valid_binary (S754_finite s mx ex) = true →
  -52 <= ex <= 1 →
  ∃ mr er,
    SF64div (S754_finite s mx ex) (Prim2SF 1000) = S754_finite s mr er
    ∧ -62 <= er <= -7
    ∧ Z.pos mx * 2 ^ (ex + 64) - 9000 * 2 ^ 55
      <= 1000 * (Z.pos mr * 2 ^ (er + 64))
      <= Z.pos mx * 2 ^ (ex + 64) + 4000 * 2 ^ 55.
Proof.
  intros Hvalid Hex.
  assert (HC : ∃ mc, Prim2SF 1000 = S754_finite false mc (-43)
                     ∧ Z.pos mc = 1000 * 2 ^ 43 ∧ Zdigits2 (Z.pos mc) = 53).
  { eexists. split; [vm_compute; reflexivity|]. split; vm_compute; reflexivity. }
  destruct HC as (mc & -> & Hmc & Hdc).
  simpl in Hvalid. unfold bounded in Hvalid. apply andb_prop in Hvalid as [Hcan _].
  apply canonical_bounds in Hcan as (Hhi & _ & Hlo).
  specialize (Hlo ltac:(unfold emin, SpecFloat.emin, prec, emax; lia)).
  assert (Hdx : Zdigits2 (Z.pos mx) = 53).
  { apply Z.le_antisymm; [apply Zdigits2_le; lia | apply (Zdigits2_ge _ 52); lia]. }
  unfold SF64div, SFdiv, SFdiv_core_binary. rewrite Hdx, Hdc.
  assert (He' : Z.min (fexp prec emax (53 + ex - (53 + -43))) (ex - -43) = ex - 10).
  { unfold fexp, emin, SpecFloat.emin, prec, emax. lia. }
  rewrite He'. replace (ex - -43 - (ex - 10)) with 53 by lia.
  rewrite Z.shiftl_mul_pow2 by lia.
  assert (Hq : Z.div_eucl (Z.pos mx * 2 ^ 53) (Z.pos mc)
               = (Z.pos mx * 2 ^ 53 / Z.pos mc, Z.pos mx * 2 ^ 53 mod Z.pos mc)).
  { unfold Z.div, Z.modulo. by destruct (Z.div_eucl _ _). }
  change (IntDef.Z.div_eucl) with Z.div_eucl. rewrite Hq. cbv beta iota.
  set (q := Z.pos mx * 2 ^ 53 / Z.pos mc).
  assert (Hqlo : Z.pos mc * q <= Z.pos mx * 2 ^ 53) by (apply Z.mul_div_le; lia).
  assert (Hqhi : Z.pos mx * 2 ^ 53 < Z.pos mc * Z.succ q)
    by (apply Z.mul_succ_div_gt; lia).
  rewrite Hmc in Hqlo, Hqhi.
  change (2 ^ 53) with (2 ^ 43 * 1024) in Hqlo, Hqhi.
  change (2 ^ 53) with 9007199254740992 in Hhi.
  change (2 ^ 52) with 4503599627370496 in Hlo.
  change (2 ^ 43) with 8796093022208 in Hqlo, Hqhi.
  assert (Hq1 : 1000 * q <= Z.pos mx * 1024) by lia.
  assert (Hq2 : Z.pos mx * 1024 < 1000 * (q + 1)) by lia.
  assert (Hq52 : 2 ^ 52 <= q) by (change (2 ^ 52) with 4503599627370496; lia).
  assert (Hq54 : q < 2 ^ 54) by (change (2 ^ 54) with 18014398509481984; lia).
  assert (Hdq : Zdigits2 q <= 54) by (apply Zdigits2_le; lia).
  destruct (binary_round_aux_bounds s q (ex - 10)
              (new_location (Z.pos mc) (Z.pos mx * (2 ^ 43 * 1024) mod Z.pos mc))
              ltac:(lia))
    as (m'' & k & Hres & Hm'' & Hk & Hek & Hblo & Hbhi).
  change (2 ^ 53) with (2 ^ 43 * 1024). fold q.
  rewrite xorb_false_r, Hres. clear Hres.
  assert (Hk2 : k <= 2).
  { unfold emin, SpecFloat.emin, prec, emax in Hek. lia. }
  assert (Hpk : 1 <= 2 ^ k <= 4).
  { pose proof (Z.pow_le_mono_r 2 0 k). pose proof (Z.pow_le_mono_r 2 k 2).
    rewrite Z.pow_0_r in *. change (2 ^ 2) with 4 in *. lia. }
  change (2 ^ 52) with 4503599627370496 in Hq52.
  destruct m'' as [|mr|mr]; [nia| |lia].
  assert ((ex - 10 + k <=? emax - prec) = true) as ->.
  { apply Z.leb_le. unfold emax, prec. lia. }
  exists mr, (ex - 10 + k). split; [done|]. split; [lia|].
  assert (Hscale : 2 ^ (ex - 10 + k + 64) = 2 ^ k * 2 ^ (ex + 54)).
  { rewrite <- Z.pow_add_r by lia. f_equal. lia. }
  assert (Hscale' : 2 ^ (ex + 64) = 1024 * 2 ^ (ex + 54)).
  { change 1024 with (2 ^ 10). rewrite <- Z.pow_add_r by lia. f_equal. lia. }
  assert (Hunit : 0 < 2 ^ (ex + 54) <= 2 ^ 55).
  { split; [apply Z.pow_pos_nonneg; lia | apply Z.pow_le_mono_r; lia]. }
  rewrite Hscale, Hscale'.
  set (u := 2 ^ (ex + 54)) in *. set (T := 2 ^ 55) in *. set (pk := 2 ^ k) in *.
  assert (Hmid : q - 8 <= Z.pos mr * pk <= q + 4) by lia.
  split.
  - replace (1000 * (Z.pos mr * (pk * u))) with (1000 * (Z.pos mr * pk) * u) by ring.
    replace (Z.pos mx * (1024 * u)) with (Z.pos mx * 1024 * u) by ring.
    assert (Z.pos mx * 1024 * u - 9000 * u <= 1000 * (Z.pos mr * pk) * u).
    { rewrite <- Z.mul_sub_distr_r. apply Z.mul_le_mono_nonneg_r; lia. }
    nia.
  - replace (1000 * (Z.pos mr * (pk * u))) with (1000 * (Z.pos mr * pk) * u) by ring.
    replace (Z.pos mx * (1024 * u)) with (Z.pos mx * 1024 * u) by ring.
    assert (1000 * (Z.pos mr * pk) * u <= Z.pos mx * 1024 * u + 4000 * u).
    { rewrite <- Z.mul_add_distr_r. apply Z.mul_le_mono_nonneg_r; lia. }
    nia.
Qed.

Lemma toNumber_opp (a : Z) : 0 < a → toNumber (- a) = (- toNumber a)%float.
Proof.
  unfold toNumber. destruct a as [|p|p]; try lia. intros _.
  simpl. unfold binary_round.
  destruct (shl_align p 0 _) as [mz ez]. unfold binary_round_aux.
  destruct (shr_fexp prec emax (Z.pos mz) ez loc_Exact) as [mrs' e'].
  destruct (shr_fexp prec emax _ e' loc_Exact) as [mrs'' e''].
  destruct (shr_m mrs'') as [|m|m]; [done| |done].
  by destruct (e'' <=? emax - prec).
Qed.

(** The timestamp of an instant other than the epoch within the range of a
    Date, as a double: it has the sign of the instant and 1000 times its
    magnitude is within 22 of the instant's. *)
Lemma timestamp_bounds (s : bool) (c : Z) :
  0 < c < 2 ^ 53 →
  ∃ mr er,
    Prim2SF (toNumber (if s then - c else c) / 1000) = S754_finite s mr er
    ∧ canonical_mantissa prec emax mr er = true
    ∧ -62 <= er <= -7
    ∧ (c - 4) * 2 ^ 64 - 9000 * 2 ^ 55
      <= 1000 * (Z.pos mr * 2 ^ (er + 64))
      <= (c + 2) * 2 ^ 64 + 4000 * 2 ^ 55.
Proof.
  intros Hc.
  pose proof (Prim2SF_valid (toNumber (if s then - c else c) / 1000)) as Hvr.
  pose proof (Prim2SF_valid (toNumber (if s then - c else c))) as Hvx.
  rewrite FloatAxioms.div_spec in Hvr |- *.
  destruct (toNumber_bounds c Hc) as (mx & ex & HX & Hex & Hxlo & Hxhi).
  assert (HX' : Prim2SF (toNumber (if s then - c else c)) = S754_finite s mx ex).
  { destruct s; [|done]. by rewrite toNumber_opp, FloatAxioms.opp_spec, HX by lia. }
  rewrite HX' in Hvr, Hvx |- *.
  destruct (div_1000_bounds s mx ex Hvx Hex) as (mr & er & HR & Her & Hrlo & Hrhi).
  rewrite HR in Hvr |- *. exists mr, er. split; [done|].
  simpl in Hvr. unfold bounded in Hvr. apply andb_prop in Hvr as [Hcan _].
  split; [done|]. split; [done|]. lia.
Qed.

(** The timestamps of two instants at least a second apart, both within the
    range of a Date, are doubles in the order of the instants. *)
Lemma timestamp_lt (a b : Z) :
  - 2 ^ 53 < a → a + 1000 <= b → b < 2 ^ 53 →
  PrimFloat.ltb (toNumber a / 1000) (toNumber b / 1000) = true.
Proof.
  intros Ha Hab Hb. rewrite FloatAxioms.ltb_spec.
  assert (Hzero : Prim2SF (toNumber 0 / 1000) = S754_zero false) by done.
  assert (Hcases : (0 < a ∧ 0 < b) ∨ (a = 0 ∧ 0 < b) ∨ (a < 0 ∧ 0 < b)
                   ∨ (a < 0 ∧ b = 0) ∨ (a < 0 ∧ b < 0)) by lia.
  destruct Hcases as [[Ha0 Hb0] | [[-> Hb0] | [[Ha0 Hb0] | [[Ha0 ->] | [Ha0 Hb0]]]]].
  - destruct (timestamp_bounds false a) as (ms & es & -> & Hca & Hes & Hslo & Hshi);
      [lia|].
    destruct (timestamp_bounds false b) as (mr & er & -> & Hcb & Her & Hrlo & Hrhi);
      [lia|].
    apply (finite_lt ms es mr er 64 Hca Hcb); [lia | lia |].
    change (2 ^ 64) with (512 * 2 ^ 55) in *.
    set (T := 2 ^ 55) in *. assert (0 < T) by done.
    set (S := Z.pos ms * 2 ^ (es + 64)) in *. set (R := Z.pos mr * 2 ^ (er + 64)) in *.
    lia.
  - destruct (timestamp_bounds false b) as (mr & er & -> & _); [lia|].
    by rewrite Hzero.
  - destruct (timestamp_bounds true (- a)) as (ms & es & Hs & _); [lia|].
    destruct (timestamp_bounds false b) as (mr & er & -> & _); [lia|].
    rewrite Z.opp_involutive in Hs. by rewrite Hs.
  - destruct (timestamp_bounds true (- a)) as (ms & es & Hs & _); [lia|].
    rewrite Z.opp_involutive in Hs. by rewrite Hs, Hzero.
  - destruct (timestamp_bounds true (- a)) as (ms & es & Hs & Hca & Hes & Hslo & Hshi);
      [lia|].
    destruct (timestamp_bounds true (- b)) as (mr & er & Hr & Hcb & Her & Hrlo & Hrhi);
      [lia|].
    rewrite Z.opp_involutive in Hs, Hr. rewrite Hs, Hr.
    apply (finite_lt_neg ms es mr er 64 Hca Hcb); [lia | lia |].
    change (2 ^ 64) with (512 * 2 ^ 55) in *.
    set (T := 2 ^ 55) in *. assert (0 < T) by done.
    set (S := Z.pos ms * 2 ^ (es + 64)) in *. set (R := Z.pos mr * 2 ^ (er + 64)) in *.
    lia.
Qed.

End Doubles.

(** ** The day loop *)

Lemma seqZ_sorted (m n : Z) : StronglySorted Z.lt (seqZ m n).
Proof.
  destruct (Z.le_gt_cases n 0) as [Hn | Hn].
  { rewrite seqZ_nil by done. constructor. }
  rewrite <- (Z2Nat.id n) by lia. generalize (Z.to_nat n) as k. clear Hn n.
  intros k. revert m. induction k as [|k IH]; intros m.
  - rewrite seqZ_nil by lia. constructor.
  - rewrite seqZ_cons by lia. constructor.
    + replace (Z.pred (Z.of_nat (S k))) with (Z.of_nat k) by lia. apply IH.
    + apply Forall_seqZ. lia.
Qed.

Lemma StronglySorted_filter {A} (R : relation A) (P : A → Prop)
  `{∀ x, Decision (P x)} (l : list A) :
  StronglySorted R l → StronglySorted R (filter P l).
Proof.
  induction 1 as [|x l Hl IH Hx]; [constructor|].
  rewrite filter_cons. case_decide; [|done].
  constructor; [done|]. apply Forall_forall. intros y [_ Hy]%list_elem_of_filter.
  rewrite Forall_forall in Hx. by apply Hx.
Qed.

(** The days of a window, one by one. *)
Lemma elem_of_windowDays (d minDate maxDate : Date) :
  d ∈ windowDays minDate maxDate
  ↔ ∃ k, 0 <= k ∧ d = minDate + k * 86400000 ∧ d <= maxDate.
Proof.
  unfold windowDays. rewrite list_elem_of_fmap. split.
  - intros (k & -> & Hk%elem_of_seqZ). exists k. Z.div_mod_to_equations. lia.
  - intros (k & Hk & -> & Hle). exists k. split; [done|]. apply elem_of_seqZ.
    Z.div_mod_to_equations. lia.
Qed.

Lemma lookup_windowDays (minDate maxDate : Date) (k : nat) (d : Date) :
  windowDays minDate maxDate !! k = Some d
  ↔ d = minDate + Z.of_nat k * 86400000 ∧ d <= maxDate.
Proof.
  unfold windowDays. rewrite list_lookup_fmap, fmap_Some. split.
  - intros (i & [-> Hi]%lookup_seqZ & ->). Z.div_mod_to_equations. lia.
  - intros [-> Hle]. exists (Z.of_nat k). split; [|lia]. apply lookup_seqZ.
    Z.div_mod_to_equations. lia.
Qed.

Lemma length_windowDays (minDate maxDate : Date) :
  minDate <= maxDate →
  length (windowDays minDate maxDate)
  = (Z.to_nat ((maxDate - minDate) / 86400000) + 1)%nat.
Proof.
  intros Hwin. unfold windowDays. rewrite length_fmap, length_seqZ.
  Z.div_mod_to_equations. lia.
Qed.

Lemma windowDays_sorted (minDate maxDate : Date) :
  StronglySorted Z.lt (windowDays minDate maxDate).
Proof.
  unfold windowDays. apply StronglySorted_fmap with (R1 := Z.lt); [|apply seqZ_sorted].
  intros x y Hxy. lia.
Qed.

Lemma windowDays_nil (minDate maxDate : Date) :
  maxDate < minDate → windowDays minDate maxDate = [].
Proof.
  intros Hinv. unfold windowDays. rewrite seqZ_nil; [done|].
  Z.div_mod_to_equations. lia.
Qed.

Lemma windowDays_cons (minDate maxDate : Date) :
  minDate <= maxDate →
  windowDays minDate maxDate = minDate :: windowDays (minDate + 86400000) maxDate.
Proof.
  intros Hwin. apply list_eq. intros [|k].
  - simpl. apply lookup_windowDays. lia.
  - simpl. destruct (windowDays (minDate + 86400000) maxDate !! k) as [d|] eqn:Hd.
    + apply lookup_windowDays in Hd. apply lookup_windowDays. lia.
    + destruct (windowDays minDate maxDate !! S k) as [d|] eqn:Hd'; [|done].
      apply lookup_windowDays in Hd'.
      assert (Hsome : windowDays (minDate + 86400000) maxDate !! k = Some d)
        by (apply lookup_windowDays; lia).
      congruence.
Qed.

(** The days of a window are a day apart, within the window. *)
Lemma windowDays_apart (lo minDate maxDate : Date) :
  lo <= minDate →
  StronglySorted (λ x y, lo <= x ∧ x + 86400000 <= y ∧ y <= maxDate)
    (windowDays minDate maxDate).
Proof.
  remember (Z.to_nat ((maxDate - minDate) / 86400000 + 1)) as n eqn:Hn.
  revert minDate Hn. induction n as [|n IH]; intros minDate Hn Hlo.
  - assert (maxDate < minDate) by (Z.div_mod_to_equations; lia).
    rewrite windowDays_nil by done. constructor.
  - assert (minDate <= maxDate) by (Z.div_mod_to_equations; lia).
    rewrite windowDays_cons by done. constructor.
    + apply IH; [Z.div_mod_to_equations; lia | lia].
    + apply Forall_forall. intros y (k & Hk & -> & Hle)%elem_of_windowDays. lia.
Qed.

Section DayLoop.
Context `{TimeZone}.

Lemma subDays_0 (date : Date) : subDays date 0 = date.
Proof. done. Qed.

(** One step of the loop moves the date on by at least an hour. *)
Lemma addDays_forward (date : Date) : date + 3600000 <= addDays date 1.
Proof.
  unfold addDays. simpl. rewrite Z.mul_1_l. pose proof (day_forward date). lia.
Qed.

Lemma eachDay_visits (fuel : nat) (date maxDate : Date) :
  (Z.to_nat ((maxDate - date) / 3600000 + 1) ≤ fuel)%nat →
  visits maxDate date (eachDay fuel date maxDate).
Proof.
  revert date. induction fuel as [|fuel IH]; intros date Hfuel; simpl.
  - apply visits_end. Z.div_mod_to_equations. lia.
  - unfold isAfter. destruct (Z.ltb_spec maxDate date) as [Hlt | Hle].
    + by apply visits_end.
    + apply visits_body; [done|]. apply IH.
      pose proof (addDays_forward date). Z.div_mod_to_equations. lia.
Qed.

(** The loop leaves through its guard. *)
Lemma days_visits (minDate maxDate : Date) :
  visits maxDate minDate (days minDate maxDate).
Proof. unfold days. apply eachDay_visits. lia. Qed.

Lemma visits_inj (maxDate date : Date) (l l' : list Date) :
  visits maxDate date l → visits maxDate date l' → l = l'.
Proof.
  intros Hl. revert l'. induction Hl as [date Hlt | date rest Hle Hrest IH];
    intros l' Hl'; inversion Hl'; subst; try lia; [done|].
  f_equal. by apply IH.
Qed.

Lemma visits_bounds (maxDate date : Date) (l : list Date) :
  visits maxDate date l → Forall (λ d, date <= d <= maxDate) l.
Proof.
  induction 1 as [date Hlt | date rest Hle Hrest IH]; constructor; [lia|].
  pose proof (addDays_forward date). eapply Forall_impl; [exact IH|].
  simpl. intros d Hd. lia.
Qed.

Lemma visits_sorted (maxDate date : Date) (l : list Date) :
  visits maxDate date l → StronglySorted Z.lt l.
Proof.
  induction 1 as [date Hlt | date rest Hle Hrest IH]; constructor; [done|].
  pose proof (addDays_forward date).
  eapply Forall_impl; [by apply visits_bounds in Hrest|].
  simpl. intros d Hd. lia.
Qed.

Lemma days_nil (minDate maxDate : Date) :
  maxDate < minDate → days minDate maxDate = [].
Proof.
  intros Hinv. apply (visits_inj maxDate minDate); [apply days_visits|].
  by apply visits_end.
Qed.

(** Under a fixed offset addDays and subDays move by whole days. *)
Lemma addDays_fixed (date : Date) (amount : Z) :
  fixedOffset → addDays date amount = date + amount * 86400000.
Proof.
  intros [c Hc]. unfold addDays. destruct (Z.eqb_spec amount 0) as [-> | Hne]; [lia|].
  cbv zeta. destruct (Hc date) as [-> _].
  destruct (Hc (date + c + amount * 86400000)) as [_ ->]. lia.
Qed.

Lemma subDays_fixed (date : Date) (amount : Z) :
  fixedOffset → subDays date amount = date - amount * 86400000.
Proof. intros Hfixed. unfold subDays. rewrite addDays_fixed by done. lia. Qed.

Lemma visits_window (minDate maxDate : Date) :
  fixedOffset → visits maxDate minDate (windowDays minDate maxDate).
Proof.
  intros Hfixed.
  remember (Z.to_nat ((maxDate - minDate) / 86400000 + 1)) as n eqn:Hn.
  revert minDate Hn. induction n as [|n IH]; intros minDate Hn.
  - assert (maxDate < minDate) by (Z.div_mod_to_equations; lia).
    rewrite windowDays_nil by done. by apply visits_end.
  - assert (minDate <= maxDate) by (Z.div_mod_to_equations; lia).
    rewrite windowDays_cons by done. apply visits_body; [done|].
    rewrite addDays_fixed by done. rewrite Z.mul_1_l. apply IH.
    Z.div_mod_to_equations. lia.
Qed.

(** Under a fixed offset the loop visits the days of the window. *)
Lemma days_window (minDate maxDate : Date) :
  fixedOffset → days minDate maxDate = windowDays minDate maxDate.
Proof.
  intros Hfixed. apply (visits_inj maxDate minDate);
    [apply days_visits | by apply visits_window].
Qed.

End DayLoop.

Section CacheProps.
Context `{TimeZone} `{Time}.

(** ** getMissing *)

Lemma cell_ensure (data : FeeStore) (id key : string) :
  cell (match data !! id with None => <[id := ∅]> data | Some _ => data end) id key
  = cell data id key.
Proof.
  unfold cell. destruct (data !! id) as [m|] eqn:E.
  - by rewrite E.
  - rewrite lookup_insert_eq. simpl. by rewrite lookup_empty.
Qed.

Lemma foldl_push (data : FeeStore) (id : string) (ds : list Date) (acc : list string) :
  foldl (λ missing date,
           let dateStr := formatDate date in
           match cell data id dateStr with
           | None => missing ++ [dateStr]
           | Some _ => missing
           end) acc ds
  = acc ++ (formatDate <$> filter (λ d, cell data id (formatDate d) = None) ds).
Proof.
  revert acc. induction ds as [|d ds IH]; intros acc; simpl.
  - by rewrite app_nil_r.
  - rewrite IH, filter_cons. destruct (cell data id (formatDate d)) eqn:E.
    + by rewrite decide_False by congruence.
    + rewrite decide_True by done. by rewrite fmap_cons, <- app_assoc.
Qed.

(** The list returned by getMissing, in closed form: the keys of the
    instants the loop visits at which the store holds no cell. *)
Lemma getMissing_missing (data : FeeStore) (minDate maxDate : Date) (id : string) :
  (getMissing data minDate maxDate id).1
  = formatDate <$> filter (λ d, cell data id (formatDate d) = None)
                     (days minDate maxDate).
Proof.
  unfold getMissing. simpl. rewrite foldl_push. simpl.
  f_equal. apply list_filter_iff. intros d. by rewrite cell_ensure.
Qed.

(** The store as getMissing leaves it. *)
Lemma getMissing_store (data : FeeStore) (minDate maxDate : Date) (id : string) :
  (getMissing data minDate maxDate id).2
  = match data !! id with None => <[id := ∅]> data | Some _ => data end.
Proof. done. Qed.

Lemma getMissing_nil (data : FeeStore) (minDate maxDate : Date) (id : string) :
  (getMissing data minDate maxDate id).1 = []
  ↔ ∀ d, d ∈ days minDate maxDate → is_Some (cell data id (formatDate d)).
Proof.
  rewrite getMissing_missing. split.
  - intros Hnil%fmap_nil_inv d Hd.
    destruct (cell data id (formatDate d)) as [c|] eqn:Hc; [by eexists|]. exfalso.
    assert (Hin : d ∈ filter (λ d, cell data id (formatDate d) = None)
                    (days minDate maxDate)) by (by apply list_elem_of_filter).
    rewrite Hnil in Hin. by apply elem_of_nil in Hin.
  - intros Hall. destruct (filter _ _) as [|d ds] eqn:E; [done|]. exfalso.
    assert (Hd : d ∈ filter (λ d, cell data id (formatDate d) = None)
                   (days minDate maxDate)) by (rewrite E; left).
    apply list_elem_of_filter in Hd as [Hnone Hd].
    destruct (Hall d Hd) as [c Hc]. congruence.
Qed.


(** C10. getMissing is not read-only: for an id absent from the store it
    leaves the store with an empty per-date map inserted at that id; every
    other entry is unchanged; for an id already present the store is the one
    it was given. *)
Theorem getMissing_effect (data : FeeStore) (minDate maxDate : Date) (id : string) :
  let data' := (getMissing data minDate maxDate id).2 in
  (data !! id = None → data' = <[id := ∅]> data ∧ data' !! id = Some ∅)
  ∧ (∀ id', id' ≠ id → data' !! id' = data !! id')
  ∧ (is_Some (data !! id) → data' = data).
Proof.
  simpl. split; [|split].
  - intros ->. split; [done|]. apply lookup_insert_eq.
  - intros id' Hne. destruct (data !! id); [done|]. by apply lookup_insert_ne.
  - by intros [m ->].
Qed.

(** ** getDateWithSmoothing *)

Lemma cellFee_cell (data : FeeStore) (id key : string) (c : Cell) :
  cell data id key = Some c → cellFee data id key = Ok (fee c).
Proof.
  unfold cell, cellFee. destruct (data !! id) as [m|]; [|done]. simpl.
  by intros ->.
Qed.

Lemma cellFee_feeOn (data : FeeStore) (id : string) (d : Date) :
  is_Some (cell data id (formatDate d)) →
  cellFee data id (formatDate d) = Ok (feeOn data id d).
Proof.
  intros [c Hc]. unfold feeOn. rewrite Hc. by apply cellFee_cell.
Qed.

(** The accumulation loop of lines 33-35 over the offsets [offs]: the fees
    are added one after the other, in the order of the offsets. *)
Lemma smoothing_loop (data : FeeStore) (id : string) (date : Date)
  (offs : list Z) (acc : float) :
  (∀ i, i ∈ offs → is_Some (cell data id (formatDate (subDays date i)))) →
  foldl (λ fee i,
           fee ←? fee;
           f ←? cellFee data id (formatDate (subDays date i));
           Ok (fee + f)%float)
        (Ok acc) offs
  = Ok (foldl PrimFloat.add acc ((λ i, feeOn data id (subDays date i)) <$> offs)).
Proof.
  revert acc. induction offs as [|i offs IH]; intros acc Hoffs; simpl; [done|].
  rewrite cellFee_feeOn by (apply Hoffs; left). simpl.
  apply IH. intros j Hj. apply Hoffs. by right.
Qed.

(** What getDateWithSmoothing returns when every cell it reads is held. *)
Lemma getDateWithSmoothing_value (data : FeeStore) (id : string) (date : Date) (s : Z) :
  (∀ i, 0 <= i <= Z.max 0 s → is_Some (cell data id (formatDate (subDays date i)))) →
  getDateWithSmoothing data id date s = Ok (smoothedFee data id date s).
Proof.
  intros Hcells. unfold getDateWithSmoothing, smoothedFee.
  assert (Hdate : is_Some (cell data id (formatDate date))).
  { rewrite <- (subDays_0 date) at 1. apply Hcells. lia. }
  rewrite cellFee_feeOn by done. simpl.
  destruct (Z.ltb_spec 0 s) as [Hpos | Hle]; [|done].
  rewrite smoothing_loop by (intros i Hi%elem_of_seqZ; apply Hcells; lia). simpl.
  unfold floatMean. do 3 f_equal. simpl length. rewrite length_fmap, length_seqZ. lia.
Qed.

(** C5, as the code has it. For every store, protocol, date and smoothing
    factor s >= 0 such that the store holds a fee at the key of the date and
    of each of the s days before it (subDays(date, 1), ..., subDays(date,
    s)), getDateWithSmoothing returns the stored fee itself for s = 0 and,
    for s > 0, the mean of those s + 1 fees as doubles give it: the fees
    added from the date backwards and the sum divided by s + 1, each
    operation rounded. *)
Theorem getDateWithSmoothing_mean (data : FeeStore) (id : string) (date : Date) (s : Z) :
  0 <= s →
  is_Some (cell data id (formatDate date)) →
  (∀ i, 1 <= i <= s → is_Some (cell data id (formatDate (subDays date i)))) →
  getDateWithSmoothing data id date s
  = Ok (if s =? 0 then feeOn data id date
        else floatMean (feeOn data id date
                        :: ((λ i, feeOn data id (subDays date i)) <$> seqZ 1 s))).
Proof.
  intros Hs Hdate Hcells. rewrite getDateWithSmoothing_value.
  - unfold smoothedFee. by destruct (Z.ltb_spec 0 s), (Z.eqb_spec s 0); try lia.
  - intros i Hi. destruct (decide (i = 0)) as [-> | Hne].
    + by rewrite subDays_0.
    + apply Hcells. lia.
Qed.

(** For s = 0 the day's fee is returned as it is stored. *)
Lemma getDateWithSmoothing_passthrough (data : FeeStore) (id : string) (date : Date)
  (c : Cell) :
  cell data id (formatDate date) = Some c →
  getDateWithSmoothing data id date 0 = Ok (fee c).
Proof.
  intros Hc. unfold getDateWithSmoothing. by rewrite (cellFee_cell _ _ _ c Hc).
Qed.

(** With a factor of 2 the three fees are summed from the day backwards and
    divided by 3: fees 10, 20, 30 on three consecutive days give 20 on the
    third. *)
Lemma getDateWithSmoothing_three_days (data : FeeStore) (id : string) (date : Date)
  (c1 c2 c3 : Cell) :
  cell data id (formatDate (subDays date 2)) = Some c1 →
  cell data id (formatDate (subDays date 1)) = Some c2 →
  cell data id (formatDate date) = Some c3 →
  getDateWithSmoothing data id date 2 = Ok ((fee c3 + fee c2 + fee c1) / 3)%float
  ∧ (fee c1 = 10%float → fee c2 = 20%float → fee c3 = 30%float →
     ((fee c3 + fee c2 + fee c1) / 3)%float = 20%float).
Proof.
  intros H1 H2 H3. split.
  - unfold getDateWithSmoothing. rewrite (cellFee_cell _ _ _ c3 H3).
    change (seqZ 1 2) with [1; 2]. simpl.
    by rewrite (cellFee_cell _ _ _ c2 H2), (cellFee_cell _ _ _ c1 H1).
  - by intros -> -> ->.
Qed.

(** ** formatData *)

Lemma formatData_loop (data : FeeStore) (primaryId : string)
  (secondaryId : option string) (s : Z) (ds : list Date) (acc : list Point.t) :
  (∀ d, d ∈ ds →
     getDateWithSmoothing data primaryId d s = Ok (smoothedFee data primaryId d s)) →
  (∀ d, d ∈ ds →
     whenSet secondaryId (λ id, getDateWithSmoothing data id d s) (Ok 0%float)
     = Ok (whenSet secondaryId (λ id, smoothedFee data id d s) 0%float)) →
  foldl (λ result date,
           result ←? result;
           primary ←? getDateWithSmoothing data primaryId date s;
           secondary ←? whenSet secondaryId
                          (λ id, getDateWithSmoothing data id date s)
                          (Ok 0%float);
           Ok (result ++ [ {| Point.date := (toNumber (getTime date) / 1000)%float;
                              Point.primary := primary;
                              Point.secondary := secondary |} ]))
        (Ok acc) ds
  = Ok (acc ++ (pointAt data primaryId secondaryId s <$> ds)).
Proof.
  revert acc. induction ds as [|d ds IH]; intros acc Hp Hs; simpl.
  - by rewrite app_nil_r.
  - rewrite Hp, Hs by left. simpl. rewrite IH.
    + by rewrite <- app_assoc.
    + intros d' Hd'. apply Hp. by right.
    + intros d' Hd'. apply Hs. by right.
Qed.

(** formatData on a store that holds every cell it reads: one point for each
    instant the loop visits, in order. *)
Lemma formatData_days (data : FeeStore) (minDate maxDate : Date)
  (primaryId : string) (secondaryId : option string) (s : Z) :
  (∀ d i, d ∈ days minDate maxDate → 0 <= i <= Z.max 0 s →
          is_Some (cell data primaryId (formatDate (subDays d i)))) →
  whenSet secondaryId
    (λ id, ∀ d i, d ∈ days minDate maxDate → 0 <= i <= Z.max 0 s →
                  is_Some (cell data id (formatDate (subDays d i)))) True →
  formatData data minDate maxDate primaryId secondaryId s
  = Ok (pointAt data primaryId secondaryId s <$> days minDate maxDate).
Proof.
  intros Hp Hs. unfold formatData. rewrite formatData_loop; [done| |].
  - intros d Hd. apply getDateWithSmoothing_value. intros i Hi. by apply Hp.
  - intros d Hd. unfold whenSet in *. destruct secondaryId as [id|]; [|done].
    destruct (String.eqb id ""); [done|].
    apply getDateWithSmoothing_value. intros i Hi. by apply Hs.
Qed.

(** The cells formatData reads lie in the window moved back by the smoothing
    factor. *)
Lemma populated_reads (data : FeeStore) (id : string) (minDate maxDate : Date) (s : Z) :
  fixedOffset →
  populated data id (if 0 <? s then subDays minDate s else minDate) maxDate →
  ∀ d i, d ∈ days minDate maxDate → 0 <= i <= Z.max 0 s →
         is_Some (cell data id (formatDate (subDays d i))).
Proof.
  intros Hfixed Hpop d i Hd Hi. rewrite days_window in Hd by done.
  apply elem_of_windowDays in Hd as (k & Hk & -> & Hle).
  rewrite subDays_fixed by done. unfold populated in Hpop.
  destruct (Z.ltb_spec 0 s) as [Hpos | Hnpos].
  - rewrite subDays_fixed in Hpop by done.
    replace (minDate + k * 86400000 - i * 86400000)
      with (minDate - s * 86400000 + (k + s - i) * 86400000) by lia.
    apply Hpop; lia.
  - replace (minDate + k * 86400000 - i * 86400000)
      with (minDate + k * 86400000) by lia.
    by apply Hpop.
Qed.

(** formatData does not throw on a store that holds every day of the window
    moved back by the smoothing factor, and then yields the series of the
    specification. *)
Lemma formatData_ok (data : FeeStore) (minDate maxDate : Date)
  (primaryId : string) (secondaryId : option string) (s : Z) :
  fixedOffset →
  let from := if 0 <? s then subDays minDate s else minDate in
  populated data primaryId from maxDate →
  whenSet secondaryId (λ id, populated data id from maxDate) True →
  formatData data minDate maxDate primaryId secondaryId s
  = Ok (pointAt data primaryId secondaryId s <$> windowDays minDate maxDate).
Proof.
  intros Hfixed from Hp Hs. rewrite formatData_days.
  - by rewrite days_window.
  - by apply populated_reads.
  - unfold whenSet in *. destruct secondaryId as [id|]; [|done].
    destruct (String.eqb id ""); [done|]. by apply populated_reads.
Qed.


End CacheProps.

Section HookProps.
Context `{TimeZone} `{Time}.

(** ** The effect *)

(** getMissing adds at most an empty map: no cell appears or disappears. *)
Lemma getMissing_cell (data : FeeStore) (minDate maxDate : Date) (id id' key : string) :
  cell (getMissing data minDate maxDate id).2 id' key = cell data id' key.
Proof.
  rewrite getMissing_store. destruct (decide (id' = id)) as [->|Hne].
  - apply cell_ensure.
  - unfold cell. destruct (data !! id); [done|]. by rewrite lookup_insert_ne.
Qed.

Lemma getMissing_populated (data : FeeStore) (minDate maxDate : Date) (id : string) :
  fixedOffset →
  populated data id minDate maxDate →
  (getMissing data minDate maxDate id).1 = [].
Proof.
  intros Hfixed Hpop. apply getMissing_nil. intros d Hd.
  rewrite days_window in Hd by done.
  apply elem_of_windowDays in Hd as (k & Hk & -> & Hle). by apply Hpop.
Qed.

Lemma ensured_cell (p : Params) (data : FeeStore) (id key : string) :
  cell (ensured p data) id key = cell data id key.
Proof.
  unfold ensured, whenSet.
  destruct (secondary p) as [sec|]; [destruct (String.eqb sec "")|];
    cbn [snd]; by rewrite ?getMissing_cell.
Qed.

Lemma recompute_fees (p : Params) (h : Hook) :
  fees (recompute p h) = ensured p (fees h).
Proof.
  unfold recompute, ensured.
  destruct (getMissing (fees h) _ _ _) as [missingPrimary fees1]. simpl.
  destruct (whenSet _ _ _) as [missingSecondary fees2]. simpl.
  destruct (_ || _); [done|]. by destruct (derive _ _).
Qed.

Lemma populated_cell (data data' : FeeStore) (id : string) (from to : Date) :
  (∀ key, cell data' id key = cell data id key) →
  populated data id from to → populated data' id from to.
Proof. intros Hcell Hpop k Hk Hle. rewrite Hcell. by apply Hpop. Qed.

(** The series of the specification depends on the store only through its
    cells. *)
Lemma smoothedFee_cell (data data' : FeeStore) (id : string) (d : Date) (s : Z) :
  (∀ key, cell data' id key = cell data id key) →
  smoothedFee data' id d s = smoothedFee data id d s.
Proof.
  intros Hcell. unfold smoothedFee, feeOn. rewrite Hcell.
  destruct (0 <? s); [|done]. do 2 f_equal. apply list_fmap_ext. intros _ i _.
  by rewrite Hcell.
Qed.

Lemma seriesOf_cell (data data' : FeeStore) (p : Params) :
  (∀ id key, cell data' id key = cell data id key) →
  seriesOf data' p = seriesOf data p.
Proof.
  intros Hcell. unfold seriesOf. apply list_fmap_ext. intros _ d _.
  unfold pointAt. rewrite (smoothedFee_cell data data') by done. f_equal.
  unfold whenSet. destruct (secondary p) as [sec|]; [|done].
  destruct (String.eqb sec ""); [done|]. by apply smoothedFee_cell.
Qed.

(** The effect issues at most one fetch, closing over its own parameters. *)
Lemma recompute_requests (p : Params) (h : Hook) :
  requests (recompute p h) = requests h
  ∨ ∃ u, requests (recompute p h)
         = requests h ++ [ {| url := u; closure := p; settled := false |} ].
Proof.
  unfold recompute.
  destruct (getMissing (fees h) _ _ _) as [missingPrimary fees1].
  destruct (whenSet _ _ _) as [missingSecondary fees2].
  destruct (_ || _).
  - right. by eexists.
  - left. by destruct (derive _ _).
Qed.

(** What derive gives on a store that holds every day of the effective
    range. *)
Lemma derive_populated (data : FeeStore) (p : Params) :
  fixedOffset →
  let from := if 0 <? smoothing p then subDays (start (dateRange p)) (smoothing p)
              else start (dateRange p) in
  populated data (primary p) from (end_ (dateRange p)) →
  whenSet (secondary p) (λ id, populated data id from (end_ (dateRange p))) True →
  derive data p = Ok (seriesOf data p).
Proof. intros Hfixed from Hp Hs. unfold derive, seriesOf. by apply formatData_ok. Qed.

(** On a store that holds every cell of the effective range the effect takes
    its second branch: nothing is fetched and the series is set at once. *)
Lemma recompute_no_fetch (p : Params) (h : Hook) :
  fixedOffset →
  let from := if 0 <? smoothing p then subDays (start (dateRange p)) (smoothing p)
              else start (dateRange p) in
  populated (fees h) (primary p) from (end_ (dateRange p)) →
  whenSet (secondary p) (λ id, populated (fees h) id from (end_ (dateRange p))) True →
  recompute p h
  = {| fees := ensured p (fees h);
       value := {| Value.loading := false; Value.data := seriesOf (fees h) p |};
       console := console h;
       requests := requests h |}.
Proof.
  intros Hfixed from Hp Hs.
  assert (Hseries : derive (ensured p (fees h)) p = Ok (seriesOf (fees h) p)).
  { rewrite derive_populated.
    - f_equal. apply seriesOf_cell. intros. apply ensured_cell.
    - done.
    - eapply populated_cell; [|exact Hp]. intros. apply ensured_cell.
    - unfold whenSet in *. destruct (secondary p) as [sec|]; [|done].
      destruct (String.eqb sec ""); [done|].
      eapply populated_cell; [|exact Hs]. intros. apply ensured_cell. }
  unfold recompute, ensured in *. fold from in Hseries |- *.
  pose proof (getMissing_populated _ _ _ _ Hfixed Hp) as Hmp.
  destruct (getMissing (fees h) from _ _) as [missingPrimary fees1] eqn:E1.
  simpl in Hmp, Hseries |- *. subst missingPrimary.
  assert (Hms : (whenSet (secondary p) (getMissing fees1 from (end_ (dateRange p)))
                   ([], fees1)).1 = []).
  { unfold whenSet in *. destruct (secondary p) as [sec|]; [|done].
    destruct (String.eqb sec ""); [done|].
    apply getMissing_populated; [done|]. eapply populated_cell; [|exact Hs].
    intros key. replace fees1 with (getMissing (fees h) from (end_ (dateRange p)) (primary p)).2
      by (by rewrite E1).
    apply getMissing_cell. }
  destruct (whenSet _ _ _) as [missingSecondary fees2]. simpl in Hms, Hseries |- *.
  subst missingSecondary. simpl. by rewrite Hseries.
Qed.


(** ** The completion of a fetch *)

Lemma onResponse_requests (p : Params) (r : Response.t) (h : Hook) :
  requests (onResponse p r h) = requests h.
Proof.
  unfold onResponse. destruct (negb _); [done|]. by destruct (derive _ _).
Qed.

Lemma settle_requests (k : nat) (o : Outcome) (h : Hook) :
  requests (settle k o h) = requests h
  ∨ requests (settle k o h) = settleFetch k (requests h).
Proof.
  unfold settle. destruct (requests h !! k) as [f|]; [|by left].
  destruct (settled f); [by left|]. right.
  destruct o; [done|]. by rewrite onResponse_requests.
Qed.

(** Settling one fetch leaves the entries of the others as they are. *)
Lemma settle_other (k j : nat) (o : Outcome) (h : Hook) :
  j ≠ k → requests (settle k o h) !! j = requests h !! j.
Proof.
  intros Hne. destruct (settle_requests k o h) as [-> | ->]; [done|].
  unfold settleFetch. by apply list_lookup_alter_ne.
Qed.

(** The callback of a fetch in flight, on a body with [success: true] from
    which the series can be derived: the records are merged and the series of
    the fetch's own parameters is exposed. *)
Lemma settle_success (k : nat) (f : Fetch) (r : Response.t) (h : Hook)
  (series : list Point.t) :
  requests h !! k = Some f →
  settled f = false →
  Response.success r = true →
  derive (saveFeeData (Response.data r) (fees h)) (closure f) = Ok series →
  fees (settle k (Json r) h) = saveFeeData (Response.data r) (fees h)
  ∧ value (settle k (Json r) h) = {| Value.loading := false; Value.data := series |}.
Proof.
  intros Hk Hf Hr Hseries. unfold settle, onResponse. rewrite Hk, Hf, Hr. simpl.
  by rewrite Hseries.
Qed.

(** C2, as the code has it. For every fetch in flight that completes with a
    body reporting [success: false], the callback logs the body, returns the
    hook to the non-loading state and keeps the series that was exposed; no
    record is merged into the store and no fetch is issued. *)
Theorem settle_failure (k : nat) (f : Fetch) (r : Response.t) (h : Hook) :
  requests h !! k = Some f →
  settled f = false →
  Response.success r = false →
  let h' := settle k (Json r) h in
  Value.loading (value h') = false
  ∧ Value.data (value h') = Value.data (value h)
  ∧ console h' = console h ++ [r]
  ∧ fees h' = fees h
  ∧ length (requests h') = length (requests h).
Proof.
  intros Hk Hf Hr. unfold settle, onResponse. rewrite Hk, Hf, Hr. simpl.
  repeat split; try done. unfold settleFetch. by rewrite length_alter.
Qed.


End HookProps.

Section AdapterProps.
Context `{Time}.

(** ** The adapters *)

Lemma lastRow_last (rows : list DayData) :
  lastRow rows = match last rows with
                 | Some row => Ok row
                 | None => Throw (TypeError "Cannot read properties of undefined")
                 end.
Proof.
  unfold lastRow. rewrite last_lookup.
  by replace (length rows - 1)%nat with (pred (length rows)) by lia.
Qed.

(** The four registrations, one by one. *)
Lemma registered_cases (id : string) (q : QueryFn) (m : Metadata) :
  (id, q, m) ∈ registered →
  (id = "uniswap-v1" ∧ q = query getUniswapV1Data)
  ∨ (id = "uniswap-v2" ∧ q = query getUniswapV2Data)
  ∨ (id = "uniswap-v3" ∧ q = query (uniV3Adapter "ianlapham/uniswap-v3-prod"))
  ∨ (id = "uniswap-optimism" ∧ q = query (uniV3Adapter "ianlapham/uniswap-optimism")).
Proof.
  unfold registered, registerUniswap. simpl.
  rewrite !elem_of_cons, elem_of_nil.
  intros [Heq | [Heq | [Heq | [Heq | []]]]]; injection Heq as -> -> ->; tauto.
Qed.

Lemma query_fee (adapter : string → Promise float) (date : string) :
  query adapter "fee" date = Ok (adapter date).
Proof. done. Qed.

(** uniV3Adapter on an answer without rows: the guard of line 129. *)
Lemma uniV3Adapter_zero_rows (sg date : string) (upstream : Upstream) (data : GraphData) :
  upstream {| subgraph := sg; timestamp := dateToTimestamp date; addresses := [] |}
    = Ok data →
  uniswapDayDatas data = [] →
  uniV3Adapter sg date upstream
  = ([ {| subgraph := sg; timestamp := dateToTimestamp date; addresses := [] |} ],
     Ok 0%float).
Proof.
  intros Hup Hrows. unfold uniV3Adapter, andThen, graph.query. rewrite Hup. simpl.
  by rewrite Hrows.
Qed.

(** C3, as the code has it. For the adapters registered as uniswap-v3 and
    uniswap-optimism, a day query that the subgraph answers with zero rows
    yields the fee 0 and no error. *)
Theorem zero_rows_fee_v3 (id : string) (q : QueryFn) (m : Metadata) (date : string)
  (data : GraphData) :
  (id, q, m) ∈ registered →
  id = "uniswap-v3" ∨ id = "uniswap-optimism" →
  uniswapDayDatas data = [] →
  (invoke q "fee" date (answering data)).2 = Ok 0%float.
Proof.
  intros Hreg Hid Hrows.
  destruct (registered_cases id q m Hreg) as [[-> _] | [[-> _] | [[_ ->] | [_ ->]]]];
    try (destruct Hid; discriminate);
    unfold invoke; rewrite query_fee;
    by erewrite uniV3Adapter_zero_rows.
Qed.

(** The rate of the V1 and V2 adapters is a positive double. *)
Lemma fee_rate : ∃ m e, Prim2SF 0.003 = S754_finite false m e.
Proof. eexists. eexists. vm_compute. reflexivity. Qed.

(** C4, as the code has it. Every fee a registered adapter returns is a
    number that is not negative when the answer it is computed from is
    plausible: the day's fees and volume are not negative, the volume is
    finite, and the blacklisted pairs' volume, as the adapter sums it, does
    not exceed the day's volume. *)
Theorem fee_nonneg (id : string) (q : QueryFn) (m : Metadata) (date : string)
  (data : GraphData) (fee : float) :
  (id, q, m) ∈ registered →
  plausible data →
  (invoke q "fee" date (answering data)).2 = Ok fee →
  nonneg fee.
Proof.
  intros Hreg Hdata. destruct fee_rate as (mc & ec & Hrate).
  destruct (registered_cases id q m Hreg) as [[_ ->] | [[_ ->] | [[_ ->] | [_ ->]]]];
    unfold invoke; rewrite query_fee;
    unfold getUniswapV1Data, getUniswapV2Data, uniV3Adapter, andThen, graph.query,
      answering; simpl;
    try (destruct (length (uniswapDayDatas data) =? 0)%nat;
         [intros [= <-]; done|]);
    rewrite lastRow_last;
    destruct (last (uniswapDayDatas data)) as [row|] eqn:Hrow; simpl; try done;
    destruct (Hdata row Hrow) as (Hfees & Hv1 & Hfin & Hv2); intros [= <-]; try done.
  - by apply (mul_nonneg _ _ mc ec).
  - apply (mul_nonneg _ _ mc ec); [done|]. by apply sub_nonneg.
Qed.


End AdapterProps.

(** * Further properties of the cache *)

Section MoreLoopProps.
Context `{TimeZone}.

(** ** The day loop *)

(** X1. The loop over dates leaves through its guard in every time zone: with
    one iteration for each hour of the range it has run to its end; it runs
    its body at minDate and then at addDays(date, 1) of each date before,
    until that is after maxDate; the instants it visits are strictly
    ascending and lie between minDate and maxDate.  In a runtime whose local
    time keeps one offset from UTC they are exactly the instants minDate + k
    days that are not after maxDate. *)
Theorem day_loop_visits (fuel : nat) (minDate maxDate : Date) :
  (Z.to_nat ((maxDate - minDate) / 3600000 + 1) ≤ fuel)%nat →
  eachDay fuel minDate maxDate = days minDate maxDate
  ∧ visits maxDate minDate (days minDate maxDate)
  ∧ StronglySorted Z.lt (days minDate maxDate)
  ∧ (∀ d, d ∈ days minDate maxDate → minDate <= d <= maxDate)
  ∧ (fixedOffset →
     ∀ d, d ∈ days minDate maxDate
          ↔ ∃ k, 0 <= k ∧ d = minDate + k * 86400000 ∧ d <= maxDate).
Proof.
  intros Hfuel. split; [|split; [|split; [|split]]].
  - apply (visits_inj maxDate minDate); [by apply eachDay_visits | apply days_visits].
  - apply days_visits.
  - eapply visits_sorted, days_visits.
  - apply Forall_forall. eapply visits_bounds, days_visits.
  - intros Hfixed d. rewrite days_window by done. apply elem_of_windowDays.
Qed.

End MoreLoopProps.

Section MoreCacheProps.
Context `{TimeZone} `{Time}.

(** ** getMissing *)

(** X2. On a window whose end is before its start nothing is read: getMissing
    reports nothing missing and formatData returns the empty series, whatever
    the store holds, even for a protocol it has never seen. *)
Theorem inverted_window (data : FeeStore) (minDate maxDate : Date)
  (primaryId : string) (secondaryId : option string) (s : Z) :
  maxDate < minDate →
  (getMissing data minDate maxDate primaryId).1 = []
  ∧ formatData data minDate maxDate primaryId secondaryId s = Ok [].
Proof.
  intros Hinv. split.
  - by rewrite getMissing_missing, days_nil.
  - unfold formatData. by rewrite days_nil.
Qed.

Lemma getMissing_ext (data data' : FeeStore) (minDate maxDate : Date) (id : string) :
  (∀ key, cell data' id key = cell data id key) →
  (getMissing data' minDate maxDate id).1 = (getMissing data minDate maxDate id).1.
Proof.
  intros Hcell. rewrite !getMissing_missing. f_equal.
  apply list_filter_iff. intros d. by rewrite Hcell.
Qed.

(** X3. Calling getMissing again on the store it left gives the same list and
    leaves that store as it is: the side effect happens once. *)
Theorem getMissing_again (data : FeeStore) (minDate maxDate : Date) (id : string) :
  getMissing (getMissing data minDate maxDate id).2 minDate maxDate id
  = getMissing data minDate maxDate id.
Proof.
  apply injective_projections.
  - apply getMissing_ext. intros key. apply getMissing_cell.
  - rewrite !getMissing_store. destruct (data !! id) as [m|] eqn:E.
    + by rewrite E.
    + by rewrite lookup_insert_eq.
Qed.

(** X4. In a runtime whose local time keeps one offset from UTC, getMissing
    returns the empty list exactly when the store holds a cell of the
    protocol for every day of the range. *)
Theorem getMissing_nil_iff (data : FeeStore) (minDate maxDate : Date) (id : string) :
  fixedOffset →
  (getMissing data minDate maxDate id).1 = [] ↔ populated data id minDate maxDate.
Proof.
  intros Hfixed. split; [|by apply getMissing_populated].
  intros Hnil k Hk Hle. eapply getMissing_nil; [exact Hnil|].
  rewrite days_window by done. apply elem_of_windowDays. by exists k.
Qed.

(** ** getDateWithSmoothing *)

Lemma cellFee_ok_inv (data : FeeStore) (id key : string) (v : float) :
  cellFee data id key = Ok v → ∃ c, cell data id key = Some c ∧ fee c = v.
Proof.
  unfold cellFee, cell. destruct (data !! id) as [m|]; [|done]. simpl.
  destruct (m !! key) as [c|]; [|done]. intros [= <-]. by exists c.
Qed.

(** X5. A smoothing factor that is not positive, negative ones included,
    leaves the day's fee as it is stored: no other cell is read and nothing
    is divided. *)
Theorem getDateWithSmoothing_not_positive (data : FeeStore) (id : string)
  (date : Date) (s : Z) (c : Cell) :
  s <= 0 →
  cell data id (formatDate date) = Some c →
  getDateWithSmoothing data id date s = Ok (fee c).
Proof.
  intros Hs Hc. unfold getDateWithSmoothing. rewrite (cellFee_cell _ _ _ c Hc). simpl.
  by destruct (Z.ltb_spec 0 s); [lia|].
Qed.

(** If the accumulation loop ends without a throw, it started without one and
    every cell it read was held. *)
Lemma smoothing_loop_inv (data : FeeStore) (id : string) (date : Date)
  (offs : list Z) (acc : Result float) (v : float) :
  foldl (λ fee i,
           fee ←? fee;
           f ←? cellFee data id (formatDate (subDays date i));
           Ok (fee + f)%float)
        acc offs = Ok v →
  (∃ a, acc = Ok a)
  ∧ ∀ i, i ∈ offs → is_Some (cell data id (formatDate (subDays date i))).
Proof.
  revert acc. induction offs as [|i offs IH]; intros acc Hv; simpl in Hv.
  - split; [by exists v|]. intros i Hi. by apply elem_of_nil in Hi.
  - apply IH in Hv as [[a Ha] Hrest].
    destruct acc as [a0|e]; [|done]. simpl in Ha.
    destruct (cellFee data id (formatDate (subDays date i))) as [f|e] eqn:Hf; [|done].
    apply cellFee_ok_inv in Hf as (c & Hc & _).
    split; [by eexists|]. intros j [->|Hj]%elem_of_cons; [by eexists | by apply Hrest].
Qed.

Lemma getDateWithSmoothing_ok_inv (data : FeeStore) (id : string) (date : Date)
  (s : Z) (v : float) :
  getDateWithSmoothing data id date s = Ok v →
  ∀ i, 0 <= i <= Z.max 0 s → is_Some (cell data id (formatDate (subDays date i))).
Proof.
  unfold getDateWithSmoothing. intros Hv.
  destruct (cellFee data id (formatDate date)) as [f|e] eqn:Hf; [|done].
  apply cellFee_ok_inv in Hf as (c & Hc & _). simpl in Hv.
  destruct (Z.ltb_spec 0 s) as [Hpos | Hle].
  - destruct (foldl _ _ _) as [w|e] eqn:Hloop; [|done].
    apply smoothing_loop_inv in Hloop as [_ Hcells].
    intros i Hi. destruct (decide (i = 0)) as [->|Hne].
    + rewrite subDays_0. by eexists.
    + apply Hcells, elem_of_seqZ. lia.
  - intros i Hi. assert (i = 0) as -> by lia. rewrite subDays_0. by eexists.
Qed.

(** X6. getDateWithSmoothing returns a value exactly when the store holds the
    cell of the date and, for a positive factor s, of each of the s dates
    subDays(date, 1), ..., subDays(date, s); otherwise it throws. *)
Theorem getDateWithSmoothing_ok_iff (data : FeeStore) (id : string) (date : Date) (s : Z) :
  (∃ v, getDateWithSmoothing data id date s = Ok v)
  ↔ is_Some (cell data id (formatDate date))
    ∧ ∀ i, 1 <= i <= s → is_Some (cell data id (formatDate (subDays date i))).
Proof.
  split.
  - intros [v Hv]. split.
    + rewrite <- (subDays_0 date) at 1.
      eapply getDateWithSmoothing_ok_inv; [done | lia].
    + intros i Hi. eapply getDateWithSmoothing_ok_inv; [done | lia].
  - intros [Hdate Hcells]. eexists. apply getDateWithSmoothing_value.
    intros i Hi. destruct (decide (i = 0)) as [-> | Hne].
    + by rewrite subDays_0.
    + apply Hcells. lia.
Qed.

Lemma sum_nonneg (acc : float) (fs : list float) :
  nonneg acc → Forall nonneg fs → nonneg (foldl PrimFloat.add acc fs).
Proof.
  revert acc. induction fs as [|f fs IH]; intros acc Hacc Hfs; [done|].
  apply Forall_cons in Hfs as [Hf Hfs]. simpl. apply IH; [|done]. by apply add_nonneg.
Qed.

(** X7. The smoothed value of fees that are not negative is not negative: if
    the fee stored at the date and at each of subDays(date, 1), ...,
    subDays(date, s) is a double with 0 <= fee, then so is the value
    getDateWithSmoothing returns (for a factor s below 2^53 - 1, so that
    s + 1 is held exactly). *)
Theorem getDateWithSmoothing_nonneg (data : FeeStore) (id : string) (date : Date) (s : Z) :
  0 <= s < 2 ^ 53 - 1 →
  (∃ c, cell data id (formatDate date) = Some c ∧ nonneg (fee c)) →
  (∀ i, 1 <= i <= s →
        ∃ c, cell data id (formatDate (subDays date i)) = Some c ∧ nonneg (fee c)) →
  ∃ v, getDateWithSmoothing data id date s = Ok v ∧ nonneg v.
Proof.
  intros Hs (c & Hc & Hfee) Hcells. eexists. split.
  { apply getDateWithSmoothing_value. intros i Hi.
    destruct (decide (i = 0)) as [-> | Hne].
    - rewrite subDays_0. by eexists.
    - destruct (Hcells i) as (ci & -> & _); [lia | by eexists]. }
  unfold smoothedFee.
  assert (Hdate : nonneg (feeOn data id date)) by (unfold feeOn; by rewrite Hc).
  destruct (Z.ltb_spec 0 s) as [Hpos | Hnpos]; [|done].
  unfold floatMean.
  destruct (toNumber_bounds (s + 1)) as (mc & ec & Hden & _); [lia|].
  simpl length. rewrite length_fmap, length_seqZ.
  replace (Z.of_nat (S (Z.to_nat s))) with (s + 1) by lia.
  apply (div_nonneg _ _ mc ec Hden). apply sum_nonneg; [done|].
  apply Forall_fmap, Forall_forall. intros i Hi%elem_of_seqZ. simpl.
  destruct (Hcells i) as (ci & Hci & Hfi); [lia|]. unfold feeOn. by rewrite Hci.
Qed.

(** ** formatData *)

Lemma formatData_loop_throw (data : FeeStore) (primaryId : string)
  (secondaryId : option string) (s : Z) (ds : list Date) (e : Error) :
  foldl (λ result date,
           result ←? result;
           primary ←? getDateWithSmoothing data primaryId date s;
           secondary ←? whenSet secondaryId
                          (λ id, getDateWithSmoothing data id date s)
                          (Ok 0%float);
           Ok (result ++ [ {| Point.date := (toNumber (getTime date) / 1000)%float;
                              Point.primary := primary;
                              Point.secondary := secondary |} ]))
        (Throw e) ds = Throw e.
Proof. by induction ds. Qed.

Lemma formatData_loop_inv (data : FeeStore) (primaryId : string)
  (secondaryId : option string) (s : Z) (ds : list Date) (acc res : list Point.t) :
  foldl (λ result date,
           result ←? result;
           primary ←? getDateWithSmoothing data primaryId date s;
           secondary ←? whenSet secondaryId
                          (λ id, getDateWithSmoothing data id date s)
                          (Ok 0%float);
           Ok (result ++ [ {| Point.date := (toNumber (getTime date) / 1000)%float;
                              Point.primary := primary;
                              Point.secondary := secondary |} ]))
        (Ok acc) ds = Ok res →
  ∃ pts, res = acc ++ pts
         ∧ Forall2 (pointOf data primaryId secondaryId s) ds pts.
Proof.
  revert acc. induction ds as [|d ds IH]; intros acc Hres; simpl in Hres.
  - injection Hres as <-. exists []. split; [by rewrite app_nil_r | constructor].
  - destruct (getDateWithSmoothing data primaryId d s) as [v|e] eqn:Hv; simpl in Hres;
      [|by rewrite formatData_loop_throw in Hres].
    destruct (whenSet secondaryId _ _) as [w|e] eqn:Hw; simpl in Hres;
      [|by rewrite formatData_loop_throw in Hres].
    apply IH in Hres as (pts & -> & Hpts).
    eexists (_ :: pts). split; [by rewrite <- app_assoc|].
    constructor; [|done]. by repeat split.
Qed.

(** The series formatData returns has one point for each instant the loop
    visits, in order. *)
Lemma formatData_inv (data : FeeStore) (minDate maxDate : Date)
  (primaryId : string) (secondaryId : option string) (s : Z) (series : list Point.t) :
  formatData data minDate maxDate primaryId secondaryId s = Ok series →
  Forall2 (pointOf data primaryId secondaryId s) (days minDate maxDate) series.
Proof.
  unfold formatData. intros Hres.
  by apply formatData_loop_inv in Hres as (pts & -> & Hpts).
Qed.

(** X8. In a runtime whose local time keeps one offset from UTC, on a window
    with start <= end, formatData returns a series exactly when the store
    holds the primary protocol (and the secondary one, if set) on every day
    from the start, moved back by a positive smoothing factor, to the end;
    with any cell of that range missing it throws. *)
Theorem formatData_ok_iff (data : FeeStore) (minDate maxDate : Date)
  (primaryId : string) (secondaryId : option string) (s : Z) :
  fixedOffset →
  minDate <= maxDate →
  (∃ series, formatData data minDate maxDate primaryId secondaryId s = Ok series)
  ↔ populated data primaryId (if 0 <? s then subDays minDate s else minDate) maxDate
    ∧ whenSet secondaryId
        (λ id, populated data id (if 0 <? s then subDays minDate s else minDate) maxDate)
        True.
Proof.
  intros Hfixed Hwin. split.
  - intros [series Hseries%formatData_inv]. rewrite days_window in Hseries by done.
    assert (Hcover : ∀ id,
              (∀ d, d ∈ windowDays minDate maxDate →
                    ∃ v, getDateWithSmoothing data id d s = Ok v) →
              populated data id (if 0 <? s then subDays minDate s else minDate) maxDate).
    { intros id Hok k Hk Hle.
      destruct (Z.ltb_spec 0 s) as [Hpos | Hnpos].
      - rewrite subDays_fixed in Hle |- * by done.
        destruct (Z.le_gt_cases s k) as [Hge | Hlt].
        + destruct (Hok (minDate + (k - s) * 86400000)) as [v Hv].
          { apply elem_of_windowDays. exists (k - s). lia. }
          replace (minDate - s * 86400000 + k * 86400000)
            with (subDays (minDate + (k - s) * 86400000) 0) by (rewrite subDays_0; lia).
          eapply getDateWithSmoothing_ok_inv; [done | lia].
        + destruct (Hok minDate) as [v Hv].
          { apply elem_of_windowDays. exists 0. lia. }
          replace (minDate - s * 86400000 + k * 86400000)
            with (subDays minDate (s - k)) by (rewrite subDays_fixed by done; lia).
          eapply getDateWithSmoothing_ok_inv; [done | lia].
      - destruct (Hok (minDate + k * 86400000)) as [v Hv].
        { apply elem_of_windowDays. by exists k. }
        rewrite <- (subDays_0 (minDate + k * 86400000)).
        eapply getDateWithSmoothing_ok_inv; [done | lia]. }
    assert (Hpoint : ∀ d, d ∈ windowDays minDate maxDate →
                       ∃ pt, pointOf data primaryId secondaryId s d pt).
    { intros d [k Hk]%list_elem_of_lookup.
      destruct (Forall2_lookup_l _ _ _ _ _ Hseries Hk) as (pt & _ & Hpt). by exists pt. }
    split.
    + apply Hcover. intros d Hd. destruct (Hpoint d Hd) as (pt & _ & Hp & _). by eexists.
    + unfold whenSet. destruct secondaryId as [id|]; [|done].
      destruct (String.eqb id "") eqn:Hid; [done|].
      apply Hcover. intros d Hd. destruct (Hpoint d Hd) as (pt & _ & _ & Hs).
      unfold whenSet in Hs. rewrite Hid in Hs. by eexists.
  - intros [Hp Hs]. eexists. by apply formatData_ok.
Qed.

(** X9. In a runtime whose local time keeps one offset from UTC, the series
    formatData returns has one point per day of the window, in order: the
    k-th point carries as timestamp the time value of minDate + k days over
    1000, as primary the value getDateWithSmoothing gives for that instant,
    and as secondary the value for the secondary protocol. *)
Theorem formatData_pointwise (data : FeeStore) (minDate maxDate : Date)
  (primaryId : string) (secondaryId : option string) (s : Z)
  (series : list Point.t) (k : nat) (pt : Point.t) :
  fixedOffset →
  formatData data minDate maxDate primaryId secondaryId s = Ok series →
  series !! k = Some pt →
  minDate + Z.of_nat k * 86400000 <= maxDate
  ∧ Point.date pt = (toNumber (minDate + Z.of_nat k * 86400000) / 1000)%float
  ∧ getDateWithSmoothing data primaryId (minDate + Z.of_nat k * 86400000) s
    = Ok (Point.primary pt)
  ∧ whenSet secondaryId
      (λ id, getDateWithSmoothing data id (minDate + Z.of_nat k * 86400000) s)
      (Ok 0%float)
    = Ok (Point.secondary pt).
Proof.
  intros Hfixed Hseries%formatData_inv Hk. rewrite days_window in Hseries by done.
  destruct (Forall2_lookup_r _ _ _ _ _ Hseries Hk) as (d & Hd & Hdate & Hp & Hs).
  apply lookup_windowDays in Hd as [-> Hle]. by repeat split.
Qed.

(** X10. With no secondary protocol selected, null or the empty string, every
    point of the series formatData returns has secondary 0. *)
Theorem formatData_no_secondary (data : FeeStore) (minDate maxDate : Date)
  (primaryId : string) (secondaryId : option string) (s : Z)
  (series : list Point.t) :
  secondaryId = None ∨ secondaryId = Some "" →
  formatData data minDate maxDate primaryId secondaryId s = Ok series →
  Forall (λ pt, Point.secondary pt = 0%float) series.
Proof.
  intros Hsec Hseries%formatData_inv.
  apply Forall_forall. intros pt [k Hk]%list_elem_of_lookup.
  destruct (Forall2_lookup_r _ _ _ _ _ Hseries Hk) as (d & _ & _ & _ & Hs).
  destruct Hsec as [-> | ->]; simpl in Hs; by injection Hs.
Qed.

(** The value getDateWithSmoothing gives depends on the store only through
    the per-date map of the protocol. *)
Lemma getDateWithSmoothing_frame (data data' : FeeStore) (id : string) (date : Date)
  (s : Z) :
  data' !! id = data !! id →
  getDateWithSmoothing data' id date s = getDateWithSmoothing data id date s.
Proof.
  intros Hid.
  assert (Hfee : ∀ key, cellFee data' id key = cellFee data id key).
  { intros key. unfold cellFee. by rewrite Hid. }
  unfold getDateWithSmoothing. rewrite Hfee.
  destruct (cellFee data id (formatDate date)) as [f|e]; [|done]. simpl.
  destruct (0 <? s); [|done]. f_equal.
  generalize (Ok (A:=float) f) as acc. induction (seqZ 1 s) as [|i offs IH]; intros acc.
  - done.
  - simpl. rewrite Hfee. apply IH.
Qed.

(** X11. formatData reads the store only at the primary protocol and, when
    one is set, at the secondary protocol: two stores that agree on those
    per-date maps give the same result, series or error. *)
Theorem formatData_frame (data data' : FeeStore) (minDate maxDate : Date)
  (primaryId : string) (secondaryId : option string) (s : Z) :
  data' !! primaryId = data !! primaryId →
  whenSet secondaryId (λ id, data' !! id = data !! id) True →
  formatData data' minDate maxDate primaryId secondaryId s
  = formatData data minDate maxDate primaryId secondaryId s.
Proof.
  intros Hp Hs. unfold formatData.
  generalize (Ok (A:=list Point.t) []) as acc.
  induction (days minDate maxDate) as [|d ds IH]; intros acc; [done|].
  simpl. rewrite (getDateWithSmoothing_frame data data' primaryId d s Hp).
  replace (whenSet secondaryId (λ id, getDateWithSmoothing data' id d s) (Ok 0%float))
    with (whenSet secondaryId (λ id, getDateWithSmoothing data id d s) (Ok 0%float)).
  { apply IH. }
  unfold whenSet in *. destruct secondaryId as [id|]; [|done].
  destruct (String.eqb id ""); [done|]. symmetry. by apply getDateWithSmoothing_frame.
Qed.

End MoreCacheProps.

(** * saveFeeData *)

Section MergeProps.

Lemma writeRecord_cell (pid : string) (r : FeeRecord.t) (st : FeeStore) (id key : string) :
  cell (writeRecord pid st r) id key
  = if decide ((pid, FeeRecord.date r) = (id, key)) then Some (FeeRecord.attrs r)
    else cell st id key.
Proof.
  unfold cell. case_decide as Heq.
  - injection Heq as -> ->. rewrite lookup_insert_eq. simpl. apply lookup_insert_eq.
  - destruct (decide (pid = id)) as [->|Hne].
    + rewrite lookup_insert_eq. simpl. rewrite lookup_insert_ne by congruence.
      by destruct (st !! id).
    + by rewrite lookup_insert_ne.
Qed.

Lemma records_cell (pid : string) (rs : list FeeRecord.t) (st : FeeStore)
  (id key : string) :
  cell (foldl (writeRecord pid) st rs) id key
  = from_option Some (cell st id key)
      (snd <$> last (filter (λ w, w.1 = (id, key))
                       ((λ r, (pid, FeeRecord.date r, FeeRecord.attrs r)) <$> rs))).
Proof.
  revert st. induction rs as [|r rs IH]; intros st; [done|].
  simpl foldl. rewrite IH, writeRecord_cell, fmap_cons, filter_cons. simpl.
  case_decide as Heq.
  - rewrite last_cons. by destruct (last _).
  - done.
Qed.

Lemma records_dom (pid : string) (rs : list FeeRecord.t) (st : FeeStore) (id : string) :
  is_Some (foldl (writeRecord pid) st rs !! id)
  ↔ is_Some (st !! id) ∨ (id = pid ∧ rs ≠ []).
Proof.
  revert st. induction rs as [|r rs IH]; intros st.
  - simpl. intuition congruence.
  - simpl foldl. rewrite IH. destruct (decide (id = pid)) as [->|Hne].
    + rewrite lookup_insert_eq. split; [|by left; eexists].
      intros _. by right.
    + rewrite lookup_insert_ne by done. intuition congruence.
Qed.

Lemma records_other (pid : string) (rs : list FeeRecord.t) (st : FeeStore) (id : string) :
  id ≠ pid → foldl (writeRecord pid) st rs !! id = st !! id.
Proof.
  intros Hne. revert st. induction rs as [|r rs IH]; intros st; [done|].
  simpl foldl. rewrite IH. by rewrite lookup_insert_ne.
Qed.

Lemma ensure_cell (st : FeeStore) (pid id key : string) :
  cell (match st !! pid with None => <[pid := ∅]> st | Some _ => st end) id key
  = cell st id key.
Proof.
  destruct (st !! pid) as [m|] eqn:E; [done|]. unfold cell.
  destruct (decide (id = pid)) as [->|Hne].
  - rewrite lookup_insert_eq, E. simpl. apply lookup_empty.
  - by rewrite lookup_insert_ne.
Qed.

Lemma writes_cons (p : ProtocolFees.t) (response : list ProtocolFees.t) :
  writes (p :: response)
  = ((λ r, (ProtocolFees.id p, FeeRecord.date r, FeeRecord.attrs r))
       <$> ProtocolFees.data p) ++ writes response.
Proof. done. Qed.

(** After the merge a cell is the last one the response writes there, and
    the cell the store had where the response writes none. *)
Lemma saveFeeData_cell (response : list ProtocolFees.t) (st : FeeStore)
  (id key : string) :
  cell (saveFeeData response st) id key
  = from_option Some (cell st id key) (lastWrite response id key).
Proof.
  unfold saveFeeData, lastWrite. revert st.
  induction response as [|p response IH]; intros st; [done|].
  simpl foldl. rewrite IH, records_cell, ensure_cell.
  rewrite writes_cons, filter_app, last_app.
  by destruct (last (filter _ (writes response))).
Qed.

(** After the merge the store has an entry for the protocols it had one for
    and for those the response names. *)
Lemma saveFeeData_dom (response : list ProtocolFees.t) (st : FeeStore) (id : string) :
  is_Some (saveFeeData response st !! id)
  ↔ is_Some (st !! id) ∨ id ∈ ProtocolFees.id <$> response.
Proof.
  unfold saveFeeData. revert st.
  induction response as [|p response IH]; intros st.
  - simpl. rewrite elem_of_nil. tauto.
  - simpl foldl. rewrite IH, records_dom, fmap_cons, elem_of_cons.
    destruct (decide (id = ProtocolFees.id p)) as [->|Hne].
    + split; [by intros _; right; left|]. intros _. left. left.
      destruct (st !! ProtocolFees.id p) as [m|] eqn:E; [by rewrite E|].
      by rewrite lookup_insert_eq.
    + assert (Hst : (match st !! ProtocolFees.id p with
                     | None => <[ProtocolFees.id p := ∅]> st
                     | Some _ => st
                     end) !! id = st !! id).
      { destruct (st !! ProtocolFees.id p); [done|]. by rewrite lookup_insert_ne. }
      rewrite Hst. intuition congruence.
Qed.

(** X12. What the store holds after saveFeeData: at every (protocol, date)
    the last cell the response writes there, or the cell the store had if
    the response writes none; and an entry for exactly the protocols that had
    one or are named in the response, even with no record. *)
Theorem saveFeeData_lookup (response : list ProtocolFees.t) (st : FeeStore)
  (id key : string) :
  cell (saveFeeData response st) id key
  = from_option Some (cell st id key) (lastWrite response id key)
  ∧ (is_Some (saveFeeData response st !! id)
     ↔ is_Some (st !! id) ∨ id ∈ ProtocolFees.id <$> response).
Proof. split; [apply saveFeeData_cell | apply saveFeeData_dom]. Qed.

Lemma saveFeeData_is_Some (response : list ProtocolFees.t) (st : FeeStore)
  (id key : string) :
  is_Some (cell st id key) → is_Some (cell (saveFeeData response st) id key).
Proof.
  intros [c Hc]. rewrite saveFeeData_cell, Hc.
  destruct (lastWrite response id key); by eexists.
Qed.

(** X13. saveFeeData only adds: a (protocol, date) cell the store held is
    still held after the merge (with the response's value if it carries one),
    and a protocol that had an entry still has one. *)
Theorem saveFeeData_grows (response : list ProtocolFees.t) (st : FeeStore)
  (id key : string) :
  (is_Some (cell st id key) → is_Some (cell (saveFeeData response st) id key))
  ∧ (is_Some (st !! id) → is_Some (saveFeeData response st !! id))
  ∧ (lastWrite response id key = None →
     cell (saveFeeData response st) id key = cell st id key).
Proof.
  split; [apply saveFeeData_is_Some|]. split.
  - intros Hid. apply saveFeeData_dom. by left.
  - intros Hnone. by rewrite saveFeeData_cell, Hnone.
Qed.

(** X14. saveFeeData leaves the per-date map of every protocol the response
    does not name exactly as it was. *)
Theorem saveFeeData_other (response : list ProtocolFees.t) (st : FeeStore) (id : string) :
  id ∉ ProtocolFees.id <$> response →
  saveFeeData response st !! id = st !! id.
Proof.
  unfold saveFeeData. revert st.
  induction response as [|p response IH]; intros st Hid; [done|].
  rewrite fmap_cons, not_elem_of_cons in Hid. destruct Hid as [Hne Hid].
  simpl foldl. rewrite IH, records_other by done.
  destruct (st !! ProtocolFees.id p); [done|]. by rewrite lookup_insert_ne.
Qed.

Lemma store_ext (st st' : FeeStore) :
  (∀ id, is_Some (st !! id) ↔ is_Some (st' !! id)) →
  (∀ id key, cell st id key = cell st' id key) →
  st = st'.
Proof.
  intros Hdom Hcell. apply map_eq. intros id.
  specialize (Hdom id). pose proof (Hcell id) as Hid. unfold cell in Hid.
  destruct (st !! id) as [m|], (st' !! id) as [m'|]; simpl in Hid.
  - f_equal. by apply map_eq.
  - destruct Hdom as [Hdom _]. destruct Hdom as [? [=]]. by eexists.
  - destruct Hdom as [_ Hdom]. destruct Hdom as [? [=]]. by eexists.
  - done.
Qed.

(** X15. Merging the same response a second time changes nothing: records
    already stored are overwritten by themselves. *)
Theorem saveFeeData_idempotent (response : list ProtocolFees.t) (st : FeeStore) :
  saveFeeData response (saveFeeData response st) = saveFeeData response st.
Proof.
  apply store_ext.
  - intros id. rewrite !saveFeeData_dom. tauto.
  - intros id key. rewrite !saveFeeData_cell.
    by destruct (lastWrite response id key).
Qed.

End MergeProps.

(** * Further properties of the hook *)

Section MoreHookProps.
Context `{TimeZone} `{Time}.

(** ** Merging what was asked for *)

(** After a response that carries a record for each date getMissing reported
    is merged, the store holds a cell at the key of every instant the loop
    visits. *)
Lemma visited_after_merge (response : list ProtocolFees.t) (st : FeeStore)
  (id : string) (minDate maxDate : Date) (d : Date) :
  covers response id (getMissing st minDate maxDate id).1 →
  d ∈ days minDate maxDate →
  is_Some (cell (saveFeeData response st) id (formatDate d)).
Proof.
  intros Hcov Hd. rewrite saveFeeData_cell.
  destruct (cell st id (formatDate d)) as [c|] eqn:Hc.
  - destruct (lastWrite response id (formatDate d)); by eexists.
  - destruct (Hcov (formatDate d)) as [c ->]; [|by eexists].
    rewrite getMissing_missing. apply list_elem_of_fmap. exists d. split; [done|].
    by apply list_elem_of_filter.
Qed.

Lemma populated_after_merge (response : list ProtocolFees.t) (st : FeeStore)
  (id : string) (minDate maxDate : Date) :
  fixedOffset →
  covers response id (getMissing st minDate maxDate id).1 →
  populated (saveFeeData response st) id minDate maxDate.
Proof.
  intros Hfixed Hcov k Hk Hle. eapply visited_after_merge; [exact Hcov|].
  rewrite days_window by done. apply elem_of_windowDays. by exists k.
Qed.

(** X16. Once a response that carries a record for each date getMissing
    reported is merged, getMissing reports nothing for that protocol and
    range: the fetch closes the gap it was issued for. *)
Theorem getMissing_after_merge (response : list ProtocolFees.t) (st : FeeStore)
  (id : string) (minDate maxDate : Date) :
  covers response id (getMissing st minDate maxDate id).1 →
  (getMissing (saveFeeData response st) minDate maxDate id).1 = [].
Proof.
  intros Hcov. apply getMissing_nil. intros d Hd. by eapply visited_after_merge.
Qed.

(** ** The effect *)

Lemma recompute_console (p : Params) (h : Hook) :
  console (recompute p h) = console h.
Proof.
  unfold recompute.
  destruct (getMissing (fees h) _ _ _) as [missingPrimary fees1].
  destruct (whenSet _ _ _) as [missingSecondary fees2].
  destruct (_ || _); [done|]. by destruct (derive _ _).
Qed.

(** X17. Whichever branch it takes, the effect changes no fee cell of the
    store and logs nothing, and the fetches issued before stay in the
    request log as they are. *)
Theorem recompute_frame (p : Params) (h : Hook) (id key : string) :
  cell (fees (recompute p h)) id key = cell (fees h) id key
  ∧ console (recompute p h) = console h
  ∧ requests h `prefix_of` requests (recompute p h).
Proof.
  split; [by rewrite recompute_fees, ensured_cell|].
  split; [apply recompute_console|].
  destruct (recompute_requests p h) as [-> | [u ->]]; [done|].
  by apply prefix_app_r.
Qed.

Lemma positive_length {A} (l : list A) : (0 <? length l)%nat = bool_decide (l ≠ []).
Proof. by destruct l. Qed.

(** X18. When a date is missing for the primary protocol or for the secondary
    one, the effect keeps the series that was exposed, sets loading, and
    issues exactly one fetch, not yet settled, that closes over its own
    parameters and whose URL lists the missing dates of each protocol. *)
Theorem recompute_fetches (p : Params) (h : Hook) :
  let from := if 0 <? smoothing p then subDays (start (dateRange p)) (smoothing p)
              else start (dateRange p) in
  let missingPrimary := (getMissing (fees h) from (end_ (dateRange p)) (primary p)).1 in
  let missingSecondary :=
    whenSet (secondary p)
      (λ id, (getMissing (fees h) from (end_ (dateRange p)) id).1) [] in
  missingPrimary ≠ [] ∨ missingSecondary ≠ [] →
  recompute p h
  = {| fees := ensured p (fees h);
       value := {| Value.loading := true; Value.data := Value.data (value h) |};
       console := console h;
       requests := requests h ++
         [ {| url := "/api/v1/feesByDay?" +:+ primary p +:+ "="
                       +:+ join "," missingPrimary +:+ "&"
                       +:+ (if bool_decide (missingSecondary ≠ [])
                            then "&" +:+ default "null" (secondary p) +:+ "="
                                 +:+ join "," missingSecondary
                            else "");
              closure := p;
              settled := false |} ] |}.
Proof.
  intros from missingPrimary missingSecondary Hmissing.
  unfold recompute, ensured. fold from.
  assert (Hsec : (whenSet (secondary p)
                    (getMissing (getMissing (fees h) from (end_ (dateRange p)) (primary p)).2
                       from (end_ (dateRange p)))
                    ([], (getMissing (fees h) from (end_ (dateRange p)) (primary p)).2)).1
                 = missingSecondary).
  { subst missingSecondary. unfold whenSet. destruct (secondary p) as [sec|]; [|done].
    destruct (String.eqb sec ""); [done|].
    apply getMissing_ext. intros key. apply getMissing_cell. }
  subst missingPrimary.
  destruct (getMissing (fees h) from _ _) as [mp fees1]. simpl in *.
  destruct (whenSet _ _ ([], fees1)) as [ms fees2]. simpl in Hsec. subst ms. simpl.
  rewrite !positive_length.
  destruct (bool_decide_reflect (mp ≠ [])) as [Hmp | Hmp]; [done|].
  destruct (bool_decide_reflect (missingSecondary ≠ [])) as [Hms | Hms]; [done|].
  simpl. tauto.
Qed.

(** ** Runs *)

Lemma onResponse_fees (p : Params) (r : Response.t) (h : Hook) :
  fees (onResponse p r h)
  = if Response.success r then saveFeeData (Response.data r) (fees h) else fees h.
Proof.
  unfold onResponse. destruct (Response.success r); [|done]. simpl.
  by destruct (derive _ _).
Qed.

Lemma step_is_Some (h : Hook) (e : Event) (id key : string) :
  is_Some (cell (fees h) id key) → is_Some (cell (fees (step h e)) id key).
Proof.
  intros Hc. destruct e as [p | k o]; simpl.
  - by rewrite recompute_fees, ensured_cell.
  - unfold settle. destruct (requests h !! k) as [f|]; [|done].
    destruct (settled f); [done|]. destruct o as [|r]; [done|].
    rewrite onResponse_fees. simpl. destruct (Response.success r); [|done].
    by apply saveFeeData_is_Some.
Qed.

(** X19. Along any run of the hook, whatever the order in which parameters
    change and fetches end and whatever the responses hold, a fee cell the
    store holds is never removed: the store only grows. *)
Theorem run_store_grows (h : Hook) (es : list Event) (id key : string) :
  is_Some (cell (fees h) id key) → is_Some (cell (fees (run h es)) id key).
Proof.
  unfold run. revert h. induction es as [|e es IH]; intros h Hc; [done|].
  simpl. by apply IH, step_is_Some.
Qed.

Lemma step_console (h : Hook) (e : Event) :
  Forall (λ r, Response.success r = false) (console h) →
  Forall (λ r, Response.success r = false) (console (step h e)).
Proof.
  intros Hlog. destruct e as [p | k o]; simpl.
  - by rewrite recompute_console.
  - unfold settle. destruct (requests h !! k) as [f|]; [|done].
    destruct (settled f); [done|]. destruct o as [|r]; [done|].
    unfold onResponse. simpl. destruct (Response.success r) eqn:Hr; simpl.
    + by destruct (derive _ _).
    + apply Forall_app. split; [done|]. by constructor.
Qed.

(** X20. From the first render on, along any run, console.error has only ever
    been passed response bodies with success: false; a body with success:
    true and a rejected fetch are never logged. *)
Theorem run_console_failures (initial : FeeStore) (es : list Event) :
  Forall (λ r, Response.success r = false) (console (run (useFees initial) es)).
Proof.
  unfold run.
  assert (Hinit : Forall (λ r, Response.success r = false) (console (useFees initial)))
    by constructor.
  revert Hinit. generalize (useFees initial) as h.
  induction es as [|e es IH]; intros h Hlog; [done|].
  simpl. by apply IH, step_console.
Qed.

Lemma step_requests (h : Hook) (e : Event) (k : nat) (f : Fetch) :
  requests h !! k = Some f →
  ∃ f', requests (step h e) !! k = Some f'
        ∧ url f' = url f ∧ closure f' = closure f
        ∧ (settled f = true → settled f' = true).
Proof.
  intros Hk. destruct e as [p | j o]; simpl.
  - destruct (recompute_requests p h) as [-> | [u ->]].
    + by exists f.
    + exists f. split; [|done]. by apply lookup_app_l_Some.
  - destruct (settle_requests j o h) as [-> | ->]; [by exists f|].
    unfold settleFetch. destruct (decide (k = j)) as [->|Hne].
    + rewrite list_lookup_alter_eq, Hk. simpl. by eexists.
    + rewrite list_lookup_alter_ne by done. by exists f.
Qed.

(** X21. The request log is append-only: along any run a fetch stays at its
    index with its URL and the parameters it closed over, and once settled it
    stays settled. *)
Theorem run_requests_kept (h : Hook) (es : list Event) (k : nat) (f : Fetch) :
  requests h !! k = Some f →
  ∃ f', requests (run h es) !! k = Some f'
        ∧ url f' = url f ∧ closure f' = closure f
        ∧ (settled f = true → settled f' = true).
Proof.
  unfold run. revert h f. induction es as [|e es IH]; intros h f Hk.
  - by exists f.
  - simpl. destruct (step_requests h e k f Hk) as (f1 & Hk1 & Hu1 & Hc1 & Hs1).
    destruct (IH _ f1 Hk1) as (f' & Hk' & Hu & Hc & Hs).
    exists f'. split; [done|]. rewrite Hu, Hc. auto.
Qed.

(** X22. The round trip of one request, in a runtime whose local time keeps
    one offset from UTC. When the effect issues a fetch and its response
    reports success and carries a record for every date that was missing, for
    the primary protocol and for the secondary one if set, the callback ends
    the loading state and exposes the series of the request's parameters: the
    derivation cannot hit a missing cell. *)
Theorem fetch_answered (p : Params) (h : Hook) (r : Response.t) :
  fixedOffset →
  let from := if 0 <? smoothing p then subDays (start (dateRange p)) (smoothing p)
              else start (dateRange p) in
  length (requests (recompute p h)) = S (length (requests h)) →
  Response.success r = true →
  covers (Response.data r) (primary p)
    (getMissing (fees h) from (end_ (dateRange p)) (primary p)).1 →
  whenSet (secondary p)
    (λ id, covers (Response.data r) id
             (getMissing (fees h) from (end_ (dateRange p)) id).1) True →
  ∃ series,
    derive (fees (settle (length (requests h)) (Json r) (recompute p h))) p = Ok series
    ∧ value (settle (length (requests h)) (Json r) (recompute p h))
      = {| Value.loading := false; Value.data := series |}.
Proof.
  intros Hfixed from Hfetch Hr Hp Hs.
  destruct (recompute_requests p h) as [Hsame | [u Hreq]].
  { rewrite Hsame in Hfetch. lia. }
  assert (Hk : requests (recompute p h) !! length (requests h)
               = Some {| url := u; closure := p; settled := false |}).
  { rewrite Hreq. by rewrite list_lookup_middle. }
  assert (Hpop : ∀ id,
            covers (Response.data r) id
              (getMissing (fees h) from (end_ (dateRange p)) id).1 →
            populated (saveFeeData (Response.data r) (fees (recompute p h))) id
              from (end_ (dateRange p))).
  { intros id Hcov. apply populated_after_merge; [done|].
    erewrite getMissing_ext; [exact Hcov|].
    intros key. by rewrite recompute_fees, ensured_cell. }
  assert (Hseries : derive (saveFeeData (Response.data r) (fees (recompute p h))) p
                    = Ok (seriesOf (saveFeeData (Response.data r) (fees (recompute p h))) p)).
  { apply derive_populated; [done | by apply Hpop |].
    unfold whenSet in *. destruct (secondary p) as [sec|]; [|done].
    destruct (String.eqb sec ""); [done|]. by apply Hpop. }
  destruct (settle_success _ _ r (recompute p h) _ Hk eq_refl Hr Hseries)
    as [Hfees Hvalue].
  eexists. split; [|exact Hvalue]. by rewrite Hfees.
Qed.

End MoreHookProps.

(** * The page *)

Section PageDates.
Context `{TimeZone}.

Lemma dateFloor_shift (t n : Z) :
  dateFloor (t - n * 86400000) = dateFloor t - n * 86400000.
Proof. unfold dateFloor. Z.div_mod_to_equations. lia. Qed.

(** X23. dateFloor returns the UTC midnight at or before its argument: a whole
    number of days, less than a day below the argument; flooring twice is
    flooring once; and in a runtime whose local time keeps one offset from
    UTC, flooring an instant moved back by n days gives the floor of the
    instant moved back by n days. *)
Theorem dateFloor_midnight (t : Date) (n : Z) :
  dateFloor t = t / 86400000 * 86400000
  ∧ dateFloor t <= t < dateFloor t + 86400000
  ∧ dateFloor (dateFloor t) = dateFloor t
  ∧ (fixedOffset → dateFloor (subDays t n) = dateFloor t - n * 86400000).
Proof.
  split; [|split; [|split]].
  - unfold dateFloor. Z.div_mod_to_equations. lia.
  - unfold dateFloor. Z.div_mod_to_equations. lia.
  - unfold dateFloor. Z.div_mod_to_equations. lia.
  - intros Hfixed. rewrite subDays_fixed by done. apply dateFloor_shift.
Qed.

Lemma initialDateRange_days (now now' : Date) :
  fixedOffset →
  initialDateRange now now'
  = {| start := dateFloor now - 90 * 86400000; end_ := dateFloor now' - 86400000 |}.
Proof.
  intros Hfixed. unfold initialDateRange.
  by rewrite !subDays_fixed, !dateFloor_shift by done.
Qed.

(** X24. In a runtime whose local time keeps one offset from UTC, the window
    ProtocolDetails starts with runs from 90 days before the current UTC day
    to the day before it, whatever the time of day; when the two readings of
    the clock fall on the same UTC day the date loop visits exactly 90 days
    on it. *)
Theorem initialDateRange_ninety_days (now now' : Date) :
  fixedOffset →
  start (initialDateRange now now') = dateFloor now - 90 * 86400000
  ∧ end_ (initialDateRange now now') = dateFloor now' - 86400000
  ∧ (dateFloor now' = dateFloor now →
     days (start (initialDateRange now now')) (end_ (initialDateRange now now'))
     = (λ k, dateFloor now - 90 * 86400000 + k * 86400000) <$> seqZ 0 90).
Proof.
  intros Hfixed. rewrite initialDateRange_days by done. simpl.
  split; [done|]. split; [done|].
  intros ->. rewrite days_window by done. unfold windowDays.
  replace ((dateFloor now - 86400000 - (dateFloor now - 90 * 86400000)) / 86400000 + 1)
    with 90; [done|].
  Z.div_mod_to_equations. lia.
Qed.

End PageDates.

Section PageProps.
Context `{TimeZone} `{Time}.
Variable getDateRangeData : string → Date → Date → Result (list FeeRecord.t).
Variable getIDs : list string.
Variable getMetadata : string → Metadata.

Lemma defaultFees_lookup (arr : list FeeRecord.t) (m : gmap string Cell) (key : string) :
  is_Some (foldl (λ defaultFees r, <[FeeRecord.date r := FeeRecord.attrs r]> defaultFees)
             m arr !! key)
  ↔ is_Some (m !! key) ∨ key ∈ FeeRecord.date <$> arr.
Proof.
  revert m. induction arr as [|r arr IH]; intros m.
  - simpl. rewrite elem_of_nil. tauto.
  - simpl foldl. rewrite IH, fmap_cons, elem_of_cons.
    destruct (decide (key = FeeRecord.date r)) as [->|Hne].
    + rewrite lookup_insert_eq. split; [auto|]. intros _. left. by eexists.
    + rewrite lookup_insert_ne by done. intuition congruence.
Qed.

(** X25. The store getStaticProps builds is enough for the first render, in a
    runtime whose local time keeps one offset from UTC. If the query service
    answered with a record for each of the 90 days before the build day, then
    on a page rendered on that same UTC day the first run of the effect
    issues no fetch and exposes a series of 90 points. *)
Theorem static_props_first_render (buildTime buildTime' renderTime renderTime' : Date)
  (id : string) (arr : list FeeRecord.t) (props : StaticProps.t) :
  fixedOffset →
  getDateRangeData id (subDays buildTime 90) (subDays buildTime' 1) = Ok arr →
  getStaticProps getDateRangeData getIDs getMetadata buildTime buildTime' id = Ok props →
  dateFloor renderTime = dateFloor buildTime →
  dateFloor renderTime' = dateFloor buildTime →
  (∀ k, 0 <= k < 90 →
        formatDate (dateFloor buildTime - 90 * 86400000 + k * 86400000)
        ∈ FeeRecord.date <$> arr) →
  requests (recompute (initialParams renderTime renderTime' id)
              (useFees (StaticProps.feeCache props))) = []
  ∧ Value.loading (value (recompute (initialParams renderTime renderTime' id)
                            (useFees (StaticProps.feeCache props)))) = false
  ∧ length (Value.data (value (recompute (initialParams renderTime renderTime' id)
                                 (useFees (StaticProps.feeCache props))))) = 90%nat.
Proof.
  intros Hfixed Harr Hprops Hday Hday' Hcover.
  unfold getStaticProps in Hprops. rewrite Harr in Hprops. simpl in Hprops.
  injection Hprops as <-. simpl.
  set (cache := ({[id := defaultFeesOf arr]} : FeeStore)).
  remember (initialParams renderTime renderTime' id) as p eqn:Hp.
  assert (Hrange : dateRange p
                   = {| start := dateFloor buildTime - 90 * 86400000;
                        end_ := dateFloor buildTime - 86400000 |}).
  { subst p. simpl. by rewrite initialDateRange_days, Hday, Hday'. }
  assert (Hprimary : primary p = id) by by subst p.
  assert (Hsecondary : secondary p = None) by by subst p.
  assert (Hsmoothing : smoothing p = 0) by by subst p.
  assert (Hpop : populated cache id (dateFloor buildTime - 90 * 86400000)
                   (dateFloor buildTime - 86400000)).
  { intros k Hk Hle. subst cache. unfold cell. rewrite lookup_singleton_eq. simpl.
    apply defaultFees_lookup. right. apply Hcover. lia. }
  rewrite recompute_no_fetch.
  - simpl. split; [done|]. split; [done|].
    unfold seriesOf. rewrite length_fmap, Hrange. simpl.
    rewrite length_windowDays by lia. Z.div_mod_to_equations. lia.
  - done.
  - cbv zeta. by rewrite Hsmoothing, Hrange, Hprimary.
  - by rewrite Hsecondary.
Qed.

Lemma names_lookup (ids : list string) (m : gmap string string) (k : string) :
  foldl (λ protocols id, <[id := name (getMetadata id)]> protocols) m ids !! k
  = if decide (k ∈ ids) then Some (name (getMetadata k)) else m !! k.
Proof.
  revert m. induction ids as [|id ids IH]; intros m.
  - simpl foldl. case_decide as Hin; [by apply elem_of_nil in Hin | done].
  - simpl foldl. rewrite IH.
    destruct (decide (k ∈ ids)) as [Hin | Hnin];
      destruct (decide (k ∈ id :: ids)) as [Hin' | Hnin'].
    + done.
    + exfalso. apply Hnin'. by right.
    + apply elem_of_cons in Hin' as [-> | Hin']; [apply lookup_insert_eq | done].
    + rewrite lookup_insert_ne; [done|]. intros ->. apply Hnin'. by left.
Qed.

(** X26. The protocols map getStaticProps returns names exactly the registered
    ids, each with the name of its metadata, and the picker of
    ProtocolDetails is offered all of them but the protocol shown. *)
Theorem other_protocols_offered (now now' : Date) (id id' : string)
  (props : StaticProps.t) :
  getStaticProps getDateRangeData getIDs getMetadata now now' id = Ok props →
  StaticProps.protocols props !! id'
  = (if decide (id' ∈ getIDs) then Some (name (getMetadata id')) else None)
  ∧ otherProtocols id (StaticProps.protocols props) !! id'
    = (if decide (id' ≠ id ∧ id' ∈ getIDs) then Some (name (getMetadata id')) else None).
Proof.
  unfold getStaticProps. destruct (getDateRangeData _ _ _) as [arr|e]; [|done].
  simpl. intros [= <-]. simpl.
  assert (Hnames : foldl (λ protocols id, <[id := name (getMetadata id)]> protocols)
                     (∅ : gmap string string)
                     (merge_sort (λ a b, String.leb a b) getIDs) !! id'
                   = if decide (id' ∈ getIDs) then Some (name (getMetadata id')) else None).
  { rewrite names_lookup, lookup_empty.
    destruct (decide (id' ∈ merge_sort (λ a b, String.leb a b) getIDs)) as [Hin | Hnin];
      destruct (decide (id' ∈ getIDs)) as [Hin' | Hnin']; try done.
    - exfalso. apply Hnin'. by rewrite <- (merge_sort_Permutation (λ a b, String.leb a b)).
    - exfalso. apply Hnin. by rewrite merge_sort_Permutation. }
  split; [done|]. unfold otherProtocols.
  destruct (decide (id' = id)) as [->|Hne].
  - rewrite lookup_delete_eq.
    destruct (decide (id ≠ id ∧ id ∈ getIDs)) as [[Hd _] | _]; [by destruct Hd | done].
  - rewrite lookup_delete_ne by done. rewrite Hnames. clear Hnames.
    destruct (decide (id' ∈ getIDs));
      destruct (decide (id' ≠ id ∧ id' ∈ getIDs)); tauto || done.
Qed.

End PageProps.

(** * Further properties of the adapters *)

Section MoreAdapterProps.
Context `{Time}.

(** X27. Invoked with "fee", every registered adapter makes exactly one call
    to the subgraph, keyed by the timestamp of the requested day, and when
    that call fails the failure is what the adapter settles with: it is
    never turned into a fee. *)
Theorem fee_query_call (id : string) (q : QueryFn) (m : Metadata) (date : string)
  (upstream : Upstream) :
  (id, q, m) ∈ registered →
  ∃ call,
    (invoke q "fee" date upstream).1 = [call]
    ∧ timestamp call = dateToTimestamp date
    ∧ (addresses call = if decide (id = "uniswap-v2") then blacklistAddresses else [])
    ∧ ∀ e, upstream call = Throw e → (invoke q "fee" date upstream).2 = Throw e.
Proof.
  intros Hreg.
  destruct (registered_cases id q m Hreg) as [[-> ->] | [[-> ->] | [[-> ->] | [-> ->]]]];
    unfold invoke; rewrite query_fee;
    unfold getUniswapV1Data, getUniswapV2Data, uniV3Adapter, andThen, graph.query;
    eexists; (split; [reflexivity|]); (split; [reflexivity|]); (split; [reflexivity|]);
    intros e He; simpl; cbn in He; by rewrite He.
Qed.

(** X28. On an answer without rows the adapters registered as uniswap-v1 and
    uniswap-v2 throw a TypeError: they read a property of the missing last
    row. *)
Theorem zero_rows_throw_v1_v2 (id : string) (q : QueryFn) (m : Metadata) (date : string)
  (data : GraphData) :
  (id, q, m) ∈ registered →
  id = "uniswap-v1" ∨ id = "uniswap-v2" →
  uniswapDayDatas data = [] →
  (invoke q "fee" date (answering data)).2
  = Throw (TypeError "Cannot read properties of undefined").
Proof.
  intros Hreg Hid Hrows.
  destruct (registered_cases id q m Hreg) as [[-> ->] | [[-> ->] | [[-> _] | [-> _]]]];
    try (destruct Hid; discriminate);
    unfold invoke; rewrite query_fee;
    unfold getUniswapV1Data, getUniswapV2Data, andThen, graph.query, answering; simpl;
    by rewrite Hrows.
Qed.

Lemma lastRow_snoc (rows : list DayData) (row : DayData) :
  lastRow (rows ++ [row]) = Ok row.
Proof. by rewrite lastRow_last, last_snoc. Qed.

(** X29. Every registered adapter computes the fee from the last row of
    uniswapDayDatas alone: the rows before it do not matter. *)
Theorem last_row_only (id : string) (q : QueryFn) (m : Metadata) (date : string)
  (rows : list DayData) (row : DayData) (blacklisted : list DayData) :
  (id, q, m) ∈ registered →
  (invoke q "fee" date
     (answering {| uniswapDayDatas := rows ++ [row]; blacklist := blacklisted |})).2
  = (invoke q "fee" date
       (answering {| uniswapDayDatas := [row]; blacklist := blacklisted |})).2.
Proof.
  intros Hreg.
  destruct (registered_cases id q m Hreg) as [[_ ->] | [[_ ->] | [[_ ->] | [_ ->]]]];
    unfold invoke; rewrite query_fee;
    unfold getUniswapV1Data, getUniswapV2Data, uniV3Adapter, andThen, graph.query,
      answering; simpl;
    rewrite ?lastRow_snoc, ?length_app; simpl;
    try (replace (length rows + 1 =? 0)%nat with false
           by (symmetry; apply Nat.eqb_neq; lia));
    done.
Qed.

End MoreAdapterProps.
(** * Worked examples *)

Lemma utcZone_fixed : @fixedOffset utcZone.
Proof. by exists 0. Qed.

Lemma populatedb_spec `{Time} (data : FeeStore) (id : string) (from to : Date) :
  populatedb data id from to = true → populated data id from to.
Proof.
  unfold populatedb. rewrite forallb_forall. intros Hall k Hk Hle.
  eapply bool_decide_eq_true_1, Hall, list_elem_of_In, elem_of_seqZ.
  Z.div_mod_to_equations. lia.
Qed.

Lemma coversb_spec (response : list ProtocolFees.t) (id : string) (keys : list string) :
  coversb response id keys = true → covers response id keys.
Proof.
  unfold coversb. rewrite forallb_forall. intros Hall key Hkey.
  by eapply bool_decide_eq_true_1, Hall, list_elem_of_In.
Qed.

Lemma plausibleb_spec (data : GraphData) :
  plausibleb data = true → plausible data.
Proof.
  unfold plausibleb, plausible, nonneg, finite. intros Hall row Hrow.
  rewrite Hrow in Hall.
  apply andb_prop in Hall as [[[Hfees Hv1]%andb_prop Hfin]%andb_prop Hv2].
  repeat split; try done. by destruct (Prim2SF (dailyVolumeUSD row)).
Qed.

Lemma seqZ_forallb (f : Z → bool) (from len : Z) :
  forallb f (seqZ from len) = true → ∀ d, from <= d < from + len → f d = true.
Proof.
  rewrite forallb_forall. intros Hall d Hd.
  by apply Hall, list_elem_of_In, elem_of_seqZ.
Qed.

Section Examples.
Local Existing Instance utcZone.
Local Existing Instance isoTime.

(** ** The cache *)

(** The missing-set example of the specification: uniswap-v2 is held for
    d1 .. d10 and d5 .. d15 is requested. *)
Example getMissing_d11_d15 :
  (getMissing tenDays (utcMidnight 18783) (utcMidnight 18793) "uniswap-v2").1
  = ["2021-06-11"; "2021-06-12"; "2021-06-13"; "2021-06-14"; "2021-06-15"].
Proof. vm_compute. reflexivity. Qed.



(** The smoothing example of the specification: 10, 20, 30 averaged on the
    third day. *)
Example smoothing_10_20_30 :
  getDateWithSmoothing threeDays "uniswap-v2" (utcMidnight 18781) 2 = Ok 20%float.
Proof. vm_compute. reflexivity. Qed.

Lemma getDateWithSmoothing_mean_witness :
  0 <= 2
  ∧ is_Some (cell threeDays "uniswap-v2" (formatDate (utcMidnight 18781)))
  ∧ (∀ i, 1 <= i <= 2 →
          is_Some (cell threeDays "uniswap-v2"
                     (formatDate (subDays (utcMidnight 18781) i))))
  ∧ getDateWithSmoothing threeDays "uniswap-v2" (utcMidnight 18781) 2
    = Ok (if 2 =? 0 then feeOn threeDays "uniswap-v2" (utcMidnight 18781)
          else floatMean (feeOn threeDays "uniswap-v2" (utcMidnight 18781)
                          :: ((λ i, feeOn threeDays "uniswap-v2"
                                      (subDays (utcMidnight 18781) i)) <$> seqZ 1 2))).
Proof.
  assert (Hdate : is_Some (cell threeDays "uniswap-v2" (formatDate (utcMidnight 18781)))).
  { vm_compute. by eexists. }
  assert (Hcells : ∀ i, 1 <= i <= 2 →
            is_Some (cell threeDays "uniswap-v2"
                       (formatDate (subDays (utcMidnight 18781) i)))).
  { intros i Hi. assert (i = 1 ∨ i = 2) as [-> | ->] by lia; vm_compute; by eexists. }
  split; [lia|]. split; [exact Hdate|]. split; [exact Hcells|].
  apply (getDateWithSmoothing_mean threeDays "uniswap-v2" (utcMidnight 18781) 2);
    [lia | exact Hdate | exact Hcells].
Defined.

(** The mean of that example is 20. *)
Example floatMean_10_20_30 :
  floatMean (feeOn threeDays "uniswap-v2" (utcMidnight 18781)
             :: ((λ i, feeOn threeDays "uniswap-v2" (subDays (utcMidnight 18781) i))
                   <$> seqZ 1 2))
  = 20%float.
Proof. vm_compute. reflexivity. Qed.

(** C5 as stated fails on doubles: with the fee 0.1 stored on three
    consecutive days and a factor of 2, the three fees add up to more than
    three tenths as a double holds them, and the value returned is
    0.10000000000000002, which is neither the number stored nor the mean of
    the three numbers stored. *)
Lemma smoothing_of_tenths_is_rounded :
  cell threeTenths "uniswap-v2" (formatDate (utcMidnight 18781)) = Some {| fee := 0.1 |}
  ∧ (∀ i, 1 <= i <= 2 →
          cell threeTenths "uniswap-v2" (formatDate (subDays (utcMidnight 18781) i))
          = Some {| fee := 0.1 |})
  ∧ getDateWithSmoothing threeTenths "uniswap-v2" (utcMidnight 18781) 2
    = Ok 0.10000000000000002%float
  ∧ 0.10000000000000002%float ≠ 0.1%float
  ∧ ¬ Qeq (exactValue 0.10000000000000002)
          (mean (exactValue <$> [0.1; 0.1; 0.1]%float)).
Proof.
  split; [|split; [|split; [|split]]].
  - vm_compute. reflexivity.
  - intros i Hi. assert (i = 1 ∨ i = 2) as [-> | ->] by lia; vm_compute; reflexivity.
  - vm_compute. reflexivity.
  - intros Heq. apply (f_equal Prim2SF) in Heq. vm_compute in Heq. discriminate.
  - intros Heq. vm_compute in Heq. discriminate.
Qed.


(** The timestamps of that series: epoch seconds of the eight midnights. *)
Example formatData_points_timestamps :
  (λ d, (toNumber (getTime d) / 1000)%float)
    <$> windowDays (utcMidnight 18781) (utcMidnight 18788)
  = [ 1622678400; 1622764800; 1622851200; 1622937600;
      1623024000; 1623110400; 1623196800; 1623283200 ]%float.
Proof. vm_compute. reflexivity. Qed.


(** ** The hook *)


(** The series of that example: eight points, 5 and 9 on each day. *)
Example recompute_populated_series :
  Value.data (value (recompute pHeld (useFees twoProtocols)))
  = (λ d, {| Point.date := (toNumber d / 1000)%float;
             Point.primary := 5; Point.secondary := 9 |})
      <$> windowDays (utcMidnight 18781) (utcMidnight 18788).
Proof. vm_compute. reflexivity. Qed.


(** A body reporting failure arrives for request A: logged, not loading, the
    (empty) series and the store kept. *)
Lemma settle_failure_witness :
  requests (recompute pA (useFees tenDays)) !! 0%nat = Some fetchA
  ∧ settled fetchA = false
  ∧ Response.success failure = false
  ∧ Value.loading (value (settle 0 (Json failure) (recompute pA (useFees tenDays)))) = false
  ∧ Value.data (value (settle 0 (Json failure) (recompute pA (useFees tenDays))))
    = Value.data (value (recompute pA (useFees tenDays)))
  ∧ console (settle 0 (Json failure) (recompute pA (useFees tenDays)))
    = console (recompute pA (useFees tenDays)) ++ [failure]
  ∧ fees (settle 0 (Json failure) (recompute pA (useFees tenDays)))
    = fees (recompute pA (useFees tenDays))
  ∧ length (requests (settle 0 (Json failure) (recompute pA (useFees tenDays))))
    = length (requests (recompute pA (useFees tenDays))).
Proof.
  assert (Hk : requests (recompute pA (useFees tenDays)) !! 0%nat = Some fetchA).
  { vm_compute. reflexivity. }
  split; [exact Hk|]. split; [reflexivity|]. split; [reflexivity|].
  apply (settle_failure 0 fetchA failure (recompute pA (useFees tenDays)) Hk);
    reflexivity.
Defined.

(** C2 as stated fails when the fetch fails by rejecting: request A's promise
    rejects, no callback runs, the hook stays loading and nothing is logged. *)
Lemma rejected_fetch_stays_loading :
  Value.loading (value (run (useFees tenDays) [Recompute pA; Settle 0 Rejected])) = true
  ∧ console (run (useFees tenDays) [Recompute pA; Settle 0 Rejected]) = [].
Proof. split; vm_compute; reflexivity. Qed.


(** The same run, event by event. *)
Example requests_in_order_run :
  value (run (useFees tenDays)
           [Recompute pA; Recompute pB; Settle 0 (Json answerA); Settle 1 (Json answerB)])
  = {| Value.loading := false; Value.data := seriesB |}.
Proof. vm_compute. reflexivity. Qed.


(** ** The adapters *)

Lemma zero_rows_fee_v3_witness :
  ("uniswap-v3", query (uniV3Adapter "ianlapham/uniswap-v3-prod"), v3Metadata) ∈ registered
  ∧ ("uniswap-v3" = "uniswap-v3" ∨ "uniswap-v3" = "uniswap-optimism")
  ∧ uniswapDayDatas noRows = []
  ∧ (invoke (query (uniV3Adapter "ianlapham/uniswap-v3-prod")) "fee" "2021-06-01"
       (answering noRows)).2 = Ok 0%float.
Proof.
  assert (Hreg : ("uniswap-v3", query (uniV3Adapter "ianlapham/uniswap-v3-prod"),
                  v3Metadata) ∈ registered).
  { apply list_elem_of_lookup. exists 2%nat. reflexivity. }
  split; [exact Hreg|]. split; [left; reflexivity|]. split; [reflexivity|].
  apply (zero_rows_fee_v3 "uniswap-v3" _ v3Metadata "2021-06-01" noRows Hreg);
    [left; reflexivity | reflexivity].
Defined.

(** C3 as stated fails for uniswap-v2 (and likewise uniswap-v1): on an answer
    without rows getUniswapV2Data reads a property of undefined and throws. *)
Lemma zero_rows_v2_throws :
  ("uniswap-v2", query getUniswapV2Data, v2Metadata) ∈ registered
  ∧ (invoke (query getUniswapV2Data) "fee" "2021-06-01" (answering noRows)).2
    = Throw (TypeError "Cannot read properties of undefined")
  ∧ (invoke (query getUniswapV1Data) "fee" "2021-06-01" (answering noRows)).2
    = Throw (TypeError "Cannot read properties of undefined").
Proof.
  split; [apply list_elem_of_lookup; exists 1%nat; reflexivity|].
  split; vm_compute; reflexivity.
Qed.

Lemma fee_nonneg_witness :
  ("uniswap-v2", query getUniswapV2Data, v2Metadata) ∈ registered
  ∧ plausible plausibleDay
  ∧ (invoke (query getUniswapV2Data) "fee" "2021-06-01" (answering plausibleDay)).2
    = Ok ((1000 - (0 + 200 + 100)) * 0.003)%float
  ∧ nonneg ((1000 - (0 + 200 + 100)) * 0.003)%float.
Proof.
  assert (Hreg : ("uniswap-v2", query getUniswapV2Data, v2Metadata) ∈ registered).
  { apply list_elem_of_lookup. exists 1%nat. reflexivity. }
  assert (Hdata : plausible plausibleDay).
  { apply plausibleb_spec. vm_compute. reflexivity. }
  split; [exact Hreg|]. split; [exact Hdata|]. split; [reflexivity|].
  apply (fee_nonneg "uniswap-v2" _ v2Metadata "2021-06-01" plausibleDay _ Hreg Hdata).
  reflexivity.
Defined.

(** C4 as stated fails: when the subgraph reports more volume for the
    blacklisted pairs than for the whole day, getUniswapV2Data returns
    (100 - 200) * 0.003, a negative fee. *)
Lemma blacklist_heavy_day_negative :
  ("uniswap-v2", query getUniswapV2Data, v2Metadata) ∈ registered
  ∧ (invoke (query getUniswapV2Data) "fee" "2021-06-01" (answering blacklistHeavyDay)).2
    = Ok (-0.3)%float
  ∧ PrimFloat.ltb (-0.3) 0 = true
  ∧ PrimFloat.leb 0 (-0.3) = false.
Proof.
  split; [apply list_elem_of_lookup; exists 1%nat; reflexivity|].
  repeat split; vm_compute; reflexivity.
Qed.

(** Why the bound of C4 is on the sum the adapter makes: the three
    blacklisted volumes below add up exactly to the day's volume, but added
    as doubles, one after the other, they come to more, and the fee is
    negative. *)
Example blacklist_rounding_day :
  let total := 0x1.0000000000003p+0%float in
  let rows := [0x1.0000000000001p+0; 0x1p-53; 0x1.8p-52]%float in
  let data := {| uniswapDayDatas := [volumeRow total];
                 blacklist := volumeRow <$> rows |} in
  Qeq (foldr Qplus 0%Q (exactValue <$> rows)) (exactValue total)
  ∧ PrimFloat.ltb total (blacklistVolume data) = true
  ∧ ∃ fee,
      (invoke (query getUniswapV2Data) "fee" "2021-06-01" (answering data)).2 = Ok fee
      ∧ PrimFloat.ltb fee 0 = true.
Proof.
  split; [vm_compute; reflexivity|]. split; [vm_compute; reflexivity|].
  eexists. split; vm_compute; reflexivity.
Qed.


End Examples.

(** * Worked examples, continued *)

Section MoreExamples.
Local Existing Instance utcZone.
Local Existing Instance isoTime.

Lemma day_loop_visits_witness :
  (Z.to_nat ((utcMidnight 18788 - utcMidnight 18779) / 3600000 + 1) ≤ 300)%nat
  ∧ eachDay 300 (utcMidnight 18779) (utcMidnight 18788)
    = days (utcMidnight 18779) (utcMidnight 18788)
  ∧ visits (utcMidnight 18788) (utcMidnight 18779)
      (days (utcMidnight 18779) (utcMidnight 18788))
  ∧ StronglySorted Z.lt (days (utcMidnight 18779) (utcMidnight 18788))
  ∧ (∀ d, d ∈ days (utcMidnight 18779) (utcMidnight 18788) →
          utcMidnight 18779 <= d <= utcMidnight 18788)
  ∧ (fixedOffset →
     ∀ d, d ∈ days (utcMidnight 18779) (utcMidnight 18788)
          ↔ ∃ k, 0 <= k ∧ d = utcMidnight 18779 + k * 86400000
                 ∧ d <= utcMidnight 18788).
Proof.
  split; [vm_compute; lia|].
  apply (day_loop_visits 300 (utcMidnight 18779) (utcMidnight 18788)). vm_compute. lia.
Defined.

(** The loop in New York over the end of daylight saving time: the dates from
    2021-11-08 on are an hour past midnight UTC. *)
Example day_loop_new_york :
  @days newYork (utcMidnight 18936) (utcMidnight 18941)
  = [ utcMidnight 18936; utcMidnight 18937; utcMidnight 18938;
      utcMidnight 18939 + 3600000; utcMidnight 18940 + 3600000 ].
Proof. vm_compute. reflexivity. Qed.

Lemma inverted_window_witness :
  utcMidnight 18779 < utcMidnight 18788
  ∧ (getMissing tenDays (utcMidnight 18788) (utcMidnight 18779) "uniswap-v3").1 = []
  ∧ formatData tenDays (utcMidnight 18788) (utcMidnight 18779) "uniswap-v3" None 2 = Ok [].
Proof.
  split; [unfold utcMidnight; lia|].
  apply (inverted_window tenDays (utcMidnight 18788) (utcMidnight 18779)
           "uniswap-v3" None 2).
  unfold utcMidnight. lia.
Defined.

Lemma getMissing_nil_iff_witness :
  fixedOffset
  ∧ ((getMissing tenDays (utcMidnight 18779) (utcMidnight 18788) "uniswap-v2").1 = []
     ↔ populated tenDays "uniswap-v2" (utcMidnight 18779) (utcMidnight 18788)).
Proof.
  split; [exact utcZone_fixed|].
  exact (getMissing_nil_iff tenDays (utcMidnight 18779) (utcMidnight 18788)
           "uniswap-v2" utcZone_fixed).
Defined.

Lemma getDateWithSmoothing_not_positive_witness :
  -1 <= 0
  ∧ cell threeDays "uniswap-v2" (formatDate (utcMidnight 18781)) = Some {| fee := 30 |}
  ∧ getDateWithSmoothing threeDays "uniswap-v2" (utcMidnight 18781) (-1)
    = Ok (fee {| fee := 30 |}).
Proof.
  assert (Hc : cell threeDays "uniswap-v2" (formatDate (utcMidnight 18781))
               = Some {| fee := 30 |}).
  { vm_compute. reflexivity. }
  split; [lia|]. split; [exact Hc|].
  apply (getDateWithSmoothing_not_positive threeDays "uniswap-v2" (utcMidnight 18781)
           (-1) _ ltac:(lia) Hc).
Defined.

Lemma getDateWithSmoothing_nonneg_witness :
  0 <= 2 < 2 ^ 53 - 1
  ∧ (∃ c, cell threeDays "uniswap-v2" (formatDate (utcMidnight 18781)) = Some c
          ∧ nonneg (fee c))
  ∧ (∀ i, 1 <= i <= 2 →
          ∃ c, cell threeDays "uniswap-v2" (formatDate (subDays (utcMidnight 18781) i))
               = Some c
               ∧ nonneg (fee c))
  ∧ ∃ v, getDateWithSmoothing threeDays "uniswap-v2" (utcMidnight 18781) 2 = Ok v
         ∧ nonneg v.
Proof.
  assert (Hs : 0 <= 2 < 2 ^ 53 - 1) by (vm_compute; split; [discriminate | reflexivity]).
  assert (Hdate : ∃ c, cell threeDays "uniswap-v2" (formatDate (utcMidnight 18781))
                       = Some c ∧ nonneg (fee c)).
  { exists {| fee := 30 |}. split; vm_compute; reflexivity. }
  assert (Hcells : ∀ i, 1 <= i <= 2 →
            ∃ c, cell threeDays "uniswap-v2"
                   (formatDate (subDays (utcMidnight 18781) i)) = Some c
                 ∧ nonneg (fee c)).
  { intros i Hi. assert (i = 1 ∨ i = 2) as [-> | ->] by lia.
    - exists {| fee := 20 |}. split; vm_compute; reflexivity.
    - exists {| fee := 10 |}. split; vm_compute; reflexivity. }
  split; [exact Hs|]. split; [exact Hdate|]. split; [exact Hcells|].
  exact (getDateWithSmoothing_nonneg threeDays "uniswap-v2" (utcMidnight 18781) 2
           Hs Hdate Hcells).
Defined.

Lemma formatData_ok_iff_witness :
  fixedOffset
  ∧ utcMidnight 18781 <= utcMidnight 18788
  ∧ ((∃ series,
        formatData twoProtocols (utcMidnight 18781) (utcMidnight 18788)
          "uniswap-v2" (Some "uniswap-v3") 2 = Ok series)
     ↔ populated twoProtocols "uniswap-v2"
         (if 0 <? 2 then subDays (utcMidnight 18781) 2 else utcMidnight 18781)
         (utcMidnight 18788)
       ∧ whenSet (Some "uniswap-v3")
           (λ id, populated twoProtocols id
                    (if 0 <? 2 then subDays (utcMidnight 18781) 2 else utcMidnight 18781)
                    (utcMidnight 18788)) True).
Proof.
  split; [exact utcZone_fixed|]. split; [unfold utcMidnight; lia|].
  apply (formatData_ok_iff twoProtocols (utcMidnight 18781) (utcMidnight 18788)
           "uniswap-v2" (Some "uniswap-v3") 2 utcZone_fixed).
  unfold utcMidnight. lia.
Defined.

Lemma formatData_pointwise_witness :
  fixedOffset
  ∧ formatData tenDays (utcMidnight 18779) (utcMidnight 18780) "uniswap-v2" None 0
    = Ok twoPoints
  ∧ twoPoints !! 1%nat
    = Some {| Point.date := 1622592000; Point.primary := 5; Point.secondary := 0 |}
  ∧ utcMidnight 18779 + Z.of_nat 1 * 86400000 <= utcMidnight 18780
  ∧ 1622592000%float
    = (toNumber (utcMidnight 18779 + Z.of_nat 1 * 86400000) / 1000)%float
  ∧ getDateWithSmoothing tenDays "uniswap-v2"
      (utcMidnight 18779 + Z.of_nat 1 * 86400000) 0 = Ok 5%float
  ∧ whenSet None
      (λ id, getDateWithSmoothing tenDays id
               (utcMidnight 18779 + Z.of_nat 1 * 86400000) 0) (Ok 0%float)
    = Ok 0%float.
Proof.
  assert (Hseries : formatData tenDays (utcMidnight 18779) (utcMidnight 18780)
                      "uniswap-v2" None 0 = Ok twoPoints).
  { vm_compute. reflexivity. }
  split; [exact utcZone_fixed|]. split; [exact Hseries|]. split; [reflexivity|].
  exact (formatData_pointwise tenDays (utcMidnight 18779) (utcMidnight 18780)
           "uniswap-v2" None 0 twoPoints 1
           {| Point.date := 1622592000; Point.primary := 5; Point.secondary := 0 |}
           utcZone_fixed Hseries eq_refl).
Defined.

Lemma formatData_no_secondary_witness :
  (Some "" = None ∨ Some "" = Some "")
  ∧ formatData tenDays (utcMidnight 18779) (utcMidnight 18780) "uniswap-v2" (Some "") 0
    = Ok twoPoints
  ∧ Forall (λ pt, Point.secondary pt = 0%float) twoPoints.
Proof.
  assert (Hseries : formatData tenDays (utcMidnight 18779) (utcMidnight 18780)
                      "uniswap-v2" (Some "") 0 = Ok twoPoints).
  { vm_compute. reflexivity. }
  split; [by right|]. split; [exact Hseries|].
  exact (formatData_no_secondary tenDays (utcMidnight 18779) (utcMidnight 18780)
           "uniswap-v2" (Some "") 0 twoPoints (or_intror eq_refl) Hseries).
Defined.

Lemma formatData_frame_witness :
  twoProtocols !! "uniswap-v2" = tenDays !! "uniswap-v2"
  ∧ whenSet None (λ id, twoProtocols !! id = tenDays !! id) True
  ∧ formatData twoProtocols (utcMidnight 18781) (utcMidnight 18788) "uniswap-v2" None 2
    = formatData tenDays (utcMidnight 18781) (utcMidnight 18788) "uniswap-v2" None 2.
Proof.
  assert (Hp : twoProtocols !! "uniswap-v2" = tenDays !! "uniswap-v2").
  { vm_compute. reflexivity. }
  split; [exact Hp|]. split; [exact I|].
  exact (formatData_frame tenDays twoProtocols (utcMidnight 18781) (utcMidnight 18788)
           "uniswap-v2" None 2 Hp I).
Defined.

Lemma saveFeeData_other_witness :
  ("uniswap-v3" ∉ ProtocolFees.id <$> Response.data answerA)
  ∧ saveFeeData (Response.data answerA) twoProtocols !! "uniswap-v3"
    = twoProtocols !! "uniswap-v3".
Proof.
  assert (Hid : "uniswap-v3" ∉ ProtocolFees.id <$> Response.data answerA).
  { simpl. rewrite elem_of_cons, elem_of_nil. intros [[=] | []]. }
  split; [exact Hid|].
  exact (saveFeeData_other (Response.data answerA) twoProtocols "uniswap-v3" Hid).
Defined.

Lemma getMissing_after_merge_witness :
  covers (Response.data answerA) "uniswap-v2"
    (getMissing tenDays (utcMidnight 18789) (utcMidnight 18790) "uniswap-v2").1
  ∧ (getMissing (saveFeeData (Response.data answerA) tenDays)
       (utcMidnight 18789) (utcMidnight 18790) "uniswap-v2").1
    = [].
Proof.
  assert (Hcov : covers (Response.data answerA) "uniswap-v2"
                   (getMissing tenDays (utcMidnight 18789) (utcMidnight 18790)
                      "uniswap-v2").1).
  { apply coversb_spec. vm_compute. reflexivity. }
  split; [exact Hcov|].
  exact (getMissing_after_merge (Response.data answerA) tenDays "uniswap-v2"
           (utcMidnight 18789) (utcMidnight 18790) Hcov).
Defined.

Lemma recompute_fetches_witness :
  ((getMissing (fees (useFees tenDays)) (utcMidnight 18789) (utcMidnight 18790)
      "uniswap-v2").1 ≠ []
   ∨ whenSet None
       (λ id, (getMissing (fees (useFees tenDays)) (utcMidnight 18789)
                 (utcMidnight 18790) id).1) [] ≠ [])
  ∧ recompute pA (useFees tenDays)
    = {| fees := ensured pA tenDays;
         value := {| Value.loading := true; Value.data := [] |};
         console := [];
         requests := [fetchA] |}.
Proof.
  assert (Hm : (getMissing (fees (useFees tenDays)) (utcMidnight 18789)
                  (utcMidnight 18790) "uniswap-v2").1 ≠ []
               ∨ whenSet None
                   (λ id, (getMissing (fees (useFees tenDays)) (utcMidnight 18789)
                             (utcMidnight 18790) id).1) [] ≠ []).
  { left. vm_compute. discriminate. }
  split; [exact Hm|].
  exact (recompute_fetches pA (useFees tenDays) Hm).
Defined.

Lemma run_store_grows_witness :
  is_Some (cell (fees (useFees tenDays)) "uniswap-v2" "2021-06-01")
  ∧ is_Some (cell (fees (run (useFees tenDays)
                           [Recompute pA; Settle 0 (Json answerA); Recompute pB;
                            Settle 1 Rejected]))
               "uniswap-v2" "2021-06-01").
Proof.
  assert (Hc : is_Some (cell (fees (useFees tenDays)) "uniswap-v2" "2021-06-01")).
  { vm_compute. by eexists. }
  split; [exact Hc|].
  exact (run_store_grows (useFees tenDays)
           [Recompute pA; Settle 0 (Json answerA); Recompute pB; Settle 1 Rejected]
           "uniswap-v2" "2021-06-01" Hc).
Defined.

Lemma run_requests_kept_witness :
  requests (recompute pA (useFees tenDays)) !! 0%nat = Some fetchA
  ∧ ∃ f', requests (run (recompute pA (useFees tenDays))
                     [Recompute pB; Settle 0 (Json answerA); Settle 1 Rejected])
          !! 0%nat = Some f'
          ∧ url f' = url fetchA ∧ closure f' = closure fetchA
          ∧ (settled fetchA = true → settled f' = true).
Proof.
  assert (Hk : requests (recompute pA (useFees tenDays)) !! 0%nat = Some fetchA).
  { vm_compute. reflexivity. }
  split; [exact Hk|].
  exact (run_requests_kept (recompute pA (useFees tenDays))
           [Recompute pB; Settle 0 (Json answerA); Settle 1 Rejected] 0 fetchA Hk).
Defined.

Lemma fetch_answered_witness :
  fixedOffset
  ∧ length (requests (recompute pA (useFees tenDays)))
    = S (length (requests (useFees tenDays)))
  ∧ Response.success answerA = true
  ∧ covers (Response.data answerA) (primary pA)
      (getMissing (fees (useFees tenDays))
         (if 0 <? smoothing pA then subDays (start (dateRange pA)) (smoothing pA)
          else start (dateRange pA))
         (end_ (dateRange pA)) (primary pA)).1
  ∧ whenSet (secondary pA)
      (λ id, covers (Response.data answerA) id
               (getMissing (fees (useFees tenDays))
                  (if 0 <? smoothing pA then subDays (start (dateRange pA)) (smoothing pA)
                   else start (dateRange pA))
                  (end_ (dateRange pA)) id).1) True
  ∧ ∃ series,
      derive (fees (settle (length (requests (useFees tenDays))) (Json answerA)
                      (recompute pA (useFees tenDays)))) pA = Ok series
      ∧ value (settle (length (requests (useFees tenDays))) (Json answerA)
                 (recompute pA (useFees tenDays)))
        = {| Value.loading := false; Value.data := series |}.
Proof.
  assert (Hfetch : length (requests (recompute pA (useFees tenDays)))
                   = S (length (requests (useFees tenDays)))).
  { vm_compute. reflexivity. }
  assert (Hcov : covers (Response.data answerA) (primary pA)
                   (getMissing (fees (useFees tenDays))
                      (if 0 <? smoothing pA
                       then subDays (start (dateRange pA)) (smoothing pA)
                       else start (dateRange pA))
                      (end_ (dateRange pA)) (primary pA)).1).
  { apply coversb_spec. vm_compute. reflexivity. }
  split; [exact utcZone_fixed|].
  split; [exact Hfetch|]. split; [reflexivity|]. split; [exact Hcov|]. split; [exact I|].
  exact (fetch_answered pA (useFees tenDays) answerA utcZone_fixed Hfetch eq_refl Hcov I).
Defined.

(** The series the round trip of request A exposes. *)
Example fetch_answered_series :
  value (settle 0 (Json answerA) (recompute pA (useFees tenDays)))
  = {| Value.loading := false; Value.data := seriesA |}.
Proof. vm_compute. reflexivity. Qed.

Lemma initialDateRange_ninety_days_witness :
  fixedOffset
  ∧ start (initialDateRange renderTime (later renderTime))
    = dateFloor renderTime - 90 * 86400000
  ∧ end_ (initialDateRange renderTime (later renderTime))
    = dateFloor (later renderTime) - 86400000
  ∧ (dateFloor (later renderTime) = dateFloor renderTime →
     days (start (initialDateRange renderTime (later renderTime)))
          (end_ (initialDateRange renderTime (later renderTime)))
     = (λ k, dateFloor renderTime - 90 * 86400000 + k * 86400000) <$> seqZ 0 90).
Proof.
  split; [exact utcZone_fixed|].
  exact (initialDateRange_ninety_days renderTime (later renderTime) utcZone_fixed).
Defined.

(** The page of the example, rendered at noon UTC of 2021-08-30, starts with
    the window 2021-06-01 .. 2021-08-29; rendered in New York half an hour
    after midnight UTC of 2021-11-10, it starts with a window whose first day
    is 2021-08-11, 91 days before the current UTC day, because the 90 days
    back cross the end of daylight saving time. *)
Example initialDateRange_example :
  initialDateRange renderTime (later renderTime)
  = {| start := utcMidnight 18779; end_ := utcMidnight 18868 |}
  ∧ start (@initialDateRange newYork (utcMidnight 18941 + 1800000)
             (utcMidnight 18941 + 1800001))
    = utcMidnight 18941 - 91 * 86400000.
Proof. split; vm_compute; reflexivity. Qed.

Lemma static_props_first_render_witness :
  fixedOffset
  ∧ queryService "uniswap-v2" (subDays buildTime 90) (subDays (later buildTime) 1)
    = Ok ninetyDays
  ∧ getStaticProps queryService twoIDs metadataOf buildTime (later buildTime) "uniswap-v2"
    = Ok builtProps
  ∧ dateFloor renderTime = dateFloor buildTime
  ∧ dateFloor (later renderTime) = dateFloor buildTime
  ∧ (∀ k, 0 <= k < 90 →
          formatDate (dateFloor buildTime - 90 * 86400000 + k * 86400000)
          ∈ FeeRecord.date <$> ninetyDays)
  ∧ requests (recompute (initialParams renderTime (later renderTime) "uniswap-v2")
                (useFees (StaticProps.feeCache builtProps))) = []
  ∧ Value.loading (value (recompute
                            (initialParams renderTime (later renderTime) "uniswap-v2")
                            (useFees (StaticProps.feeCache builtProps)))) = false
  ∧ length (Value.data (value (recompute
                                 (initialParams renderTime (later renderTime) "uniswap-v2")
                                 (useFees (StaticProps.feeCache builtProps))))) = 90%nat.
Proof.
  assert (Hprops : getStaticProps queryService twoIDs metadataOf buildTime
                     (later buildTime) "uniswap-v2" = Ok builtProps).
  { vm_compute. reflexivity. }
  assert (Hday : dateFloor renderTime = dateFloor buildTime).
  { vm_compute. reflexivity. }
  assert (Hday' : dateFloor (later renderTime) = dateFloor buildTime).
  { vm_compute. reflexivity. }
  assert (Hcover : ∀ k, 0 <= k < 90 →
                     formatDate (dateFloor buildTime - 90 * 86400000 + k * 86400000)
                     ∈ FeeRecord.date <$> ninetyDays).
  { intros k Hk.
    assert (Hall : forallb (λ x, bool_decide
                             (formatDate (dateFloor buildTime - 90 * 86400000
                                          + x * 86400000)
                              ∈ FeeRecord.date <$> ninetyDays))
                     (seqZ 0 90) = true) by (vm_compute; reflexivity).
    eapply bool_decide_eq_true_1, (seqZ_forallb _ _ _ Hall). lia. }
  split; [exact utcZone_fixed|].
  split; [reflexivity|]. split; [exact Hprops|]. split; [exact Hday|].
  split; [exact Hday'|]. split; [exact Hcover|].
  exact (static_props_first_render queryService twoIDs metadataOf buildTime
           (later buildTime) renderTime (later renderTime)
           "uniswap-v2" ninetyDays builtProps utcZone_fixed eq_refl Hprops Hday Hday'
           Hcover).
Defined.

Lemma other_protocols_offered_witness :
  getStaticProps queryService twoIDs metadataOf buildTime (later buildTime) "uniswap-v2"
  = Ok builtProps
  ∧ StaticProps.protocols builtProps !! "uniswap-v1"
    = (if decide ("uniswap-v1" ∈ twoIDs)
       then Some (name (metadataOf "uniswap-v1")) else None)
  ∧ otherProtocols "uniswap-v2" (StaticProps.protocols builtProps) !! "uniswap-v1"
    = (if decide ("uniswap-v1" ≠ "uniswap-v2" ∧ "uniswap-v1" ∈ twoIDs)
       then Some (name (metadataOf "uniswap-v1")) else None).
Proof.
  assert (Hprops : getStaticProps queryService twoIDs metadataOf buildTime
                     (later buildTime) "uniswap-v2" = Ok builtProps).
  { vm_compute. reflexivity. }
  split; [exact Hprops|].
  exact (other_protocols_offered queryService twoIDs metadataOf buildTime
           (later buildTime) "uniswap-v2" "uniswap-v1" builtProps Hprops).
Defined.

(** The picker of the example page offers uniswap-v1 and not uniswap-v2. *)
Example other_protocols_example :
  otherProtocols "uniswap-v2" (StaticProps.protocols builtProps) !! "uniswap-v1"
  = Some "Uniswap V1"
  ∧ otherProtocols "uniswap-v2" (StaticProps.protocols builtProps) !! "uniswap-v2" = None.
Proof. split; vm_compute; reflexivity. Qed.

Lemma fee_query_call_witness :
  ("uniswap-v2", query getUniswapV2Data, v2Metadata) ∈ registered
  ∧ ∃ call,
      (invoke (query getUniswapV2Data) "fee" "2021-06-01" (answering plausibleDay)).1
      = [call]
      ∧ timestamp call = dateToTimestamp "2021-06-01"
      ∧ (addresses call
         = if decide ("uniswap-v2" = "uniswap-v2") then blacklistAddresses else [])
      ∧ ∀ e, answering plausibleDay call = Throw e →
             (invoke (query getUniswapV2Data) "fee" "2021-06-01"
                (answering plausibleDay)).2 = Throw e.
Proof.
  assert (Hreg : ("uniswap-v2", query getUniswapV2Data, v2Metadata) ∈ registered).
  { apply list_elem_of_lookup. exists 1%nat. reflexivity. }
  split; [exact Hreg|].
  exact (fee_query_call "uniswap-v2" _ v2Metadata "2021-06-01" (answering plausibleDay)
           Hreg).
Defined.

Lemma zero_rows_throw_v1_v2_witness :
  ("uniswap-v1", query getUniswapV1Data, v1Metadata) ∈ registered
  ∧ ("uniswap-v1" = "uniswap-v1" ∨ "uniswap-v1" = "uniswap-v2")
  ∧ uniswapDayDatas noRows = []
  ∧ (invoke (query getUniswapV1Data) "fee" "2021-06-01" (answering noRows)).2
    = Throw (TypeError "Cannot read properties of undefined").
Proof.
  assert (Hreg : ("uniswap-v1", query getUniswapV1Data, v1Metadata) ∈ registered).
  { apply list_elem_of_lookup. exists 0%nat. reflexivity. }
  split; [exact Hreg|]. split; [by left|]. split; [reflexivity|].
  exact (zero_rows_throw_v1_v2 "uniswap-v1" _ v1Metadata "2021-06-01" noRows Hreg
           (or_introl eq_refl) eq_refl).
Defined.

Lemma last_row_only_witness :
  ("uniswap-v3", query (uniV3Adapter "ianlapham/uniswap-v3-prod"), v3Metadata) ∈ registered
  ∧ (invoke (query (uniV3Adapter "ianlapham/uniswap-v3-prod")) "fee" "2021-06-01"
       (answering {| uniswapDayDatas := [volumeRow 1; volumeRow 2] ++ [volumeRow 3];
                     blacklist := [] |})).2
    = (invoke (query (uniV3Adapter "ianlapham/uniswap-v3-prod")) "fee" "2021-06-01"
         (answering {| uniswapDayDatas := [volumeRow 3]; blacklist := [] |})).2.
Proof.
  assert (Hreg : ("uniswap-v3", query (uniV3Adapter "ianlapham/uniswap-v3-prod"),
                  v3Metadata) ∈ registered).
  { apply list_elem_of_lookup. exists 2%nat. reflexivity. }
  split; [exact Hreg|].
  exact (last_row_only "uniswap-v3" _ v3Metadata "2021-06-01"
           [volumeRow 1; volumeRow 2] (volumeRow 3) [] Hreg).
Defined.

End MoreExamples.
